(** * untestify: template expansion, import reconciliation and the driver

    A shallow embedding of the two Go programs of the repository,
    [src/unnamed/part_000] (module [Part000]) and [src/untestify.go]
    (module [Untestify]), and the properties of their template expander,
    import reconciler and package loop. *)

From Stdlib Require Import ZArith String Ascii List Lia Bool.
From Stdlib Require Import DecimalString DecimalN DecimalPos DecimalFacts.
From stdpp Require Import base option list gmap strings.

Open Scope string_scope.
Open Scope Z_scope.

(* ===================================================================== *)
(** * Go primitives used by the programs *)
(* ===================================================================== *)

(** ** The Go [int] type (64 bits, two's complement wrap-around) *)

Definition int_min : Z := - 2 ^ 63.
Definition int_max : Z := 2 ^ 63 - 1.

Definition int_wrap (z : Z) : Z := (z + 2 ^ 63) mod 2 ^ 64 - 2 ^ 63.

(** [x + y] and [x++] on [int]. *)
Definition int_add (x y : Z) : Z := int_wrap (x + y).
Definition int_incr (x : Z) : Z := int_add x 1.

Definition int_of_len {A} (l : list A) : Z := Z.of_nat (length l).

(** ** package [strings] *)

Definition nl : string := String "010"%char EmptyString.
Definition tab : string := String "009"%char EmptyString.
Definition dq : string := String "034"%char EmptyString.

(** [strings.HasPrefix s p]. *)
Definition HasPrefix (s p : string) : bool := String.prefix p s.

(** [strings.Contains s sub]: some suffix of [s] starts with [sub]. *)
Fixpoint Contains (s sub : string) : bool :=
  match s with
  | EmptyString => HasPrefix s sub
  | String _ s' => HasPrefix s sub || Contains s' sub
  end.

(** [strings.Index s sub >= 0], the way [src/untestify.go] spells
    [strings.Contains]. *)
Fixpoint Index_from (i : Z) (s sub : string) : Z :=
  match s with
  | EmptyString => if HasPrefix s sub then i else -1
  | String _ s' => if HasPrefix s sub then i else Index_from (i + 1) s' sub
  end.

Definition Index (s sub : string) : Z := Index_from 0 s sub.

(** [strings.Replace s old new (-1)] for a non-empty [old]: the
    non-overlapping occurrences of [old] are replaced left to right;
    [skip] counts the characters of a matched occurrence still to drop. *)
Fixpoint replace_from (old new : string) (skip : nat) (s : string) : string :=
  match s with
  | EmptyString => EmptyString
  | String c s' =>
      match skip with
      | S k => replace_from old new k s'
      | O =>
          if HasPrefix s old
          then new ++ replace_from old new (String.length old - 1) s'
          else String c (replace_from old new 0 s')
      end
  end.

(** With an empty [old], Go inserts [new] before every character and at
    the end. *)
Fixpoint replace_empty (new s : string) : string :=
  match s with
  | EmptyString => new
  | String c s' => new ++ String c (replace_empty new s')
  end.

Definition Replace (s old new : string) : string :=
  match old with
  | EmptyString => replace_empty new s
  | _ => replace_from old new 0 s
  end.

(** ** package [fmt]: the verb [%0wd] (and [%d] as width 0) *)

Fixpoint zeros (k : nat) : string :=
  match k with
  | O => EmptyString
  | S k' => String "0"%char (zeros k')
  end.

Definition dec_of_N (n : N) : string := NilEmpty.string_of_uint (N.to_uint n).

Definition pad0 (w : nat) (digits : string) : string :=
  zeros (w - String.length digits) ++ digits.

(** The sign counts in the width: [Sprintf("%04d", -1) = "-001"]. *)
Definition fmt_d0 (w : nat) (z : Z) : string :=
  if z <? 0
  then String "-"%char (pad0 (w - 1) (dec_of_N (Z.to_N (- z))))
  else pad0 w (dec_of_N (Z.to_N z)).

Definition fmt_d (z : Z) : string := fmt_d0 0 z.

(** Reading a rendering back; used to show that renderings are distinct. *)
Definition read_N (s : string) : option N :=
  match NilEmpty.uint_of_string s with
  | Some d => Some (N.of_uint d)
  | None => None
  end.

Definition read_d (s : string) : option Z :=
  match s with
  | String c s' =>
      if Ascii.eqb c "-"
      then option_map (fun n => - Z.of_N n) (read_N s')
      else option_map Z.of_N (read_N s)
  | EmptyString => option_map Z.of_N (read_N s)
  end.

(** ** package [path/filepath] *)

(** [filepath.Join(dir, name)] where both operands are already clean (no
    empty, [.] or [..] element and no doubled separator), as at the single
    call site. *)
Definition filepath_Join (dir name : string) : string := dir ++ "/" ++ name.

(* ===================================================================== *)
(** * Data model *)
(* ===================================================================== *)

(** ** The part of [go/ast] the programs touch *)

(** Address of an [*ast.ImportSpec]. *)
Definition loc := positive.

(** [ast.ImportSpec]: [Name] is the alias ([None] for a nil [*ast.Ident]),
    [Path] is [Path.Value], the import path literal with its quotes. *)
Record ImportSpec := mkImportSpec { Name : option string; Path : string }.

Inductive Token := IMPORT | CONST | TYPE | VAR.

(** [ast.Spec]: a pointer to an import spec, or a value or type spec. *)
Inductive Spec := SImport (l : loc) | SOther.

(** [ast.Decl]; the text of the other declarations is kept as is. *)
Inductive Decl :=
| GenDecl (Tok : Token) (Specs : list Spec)
| FuncDecl (src : string)
| BadDecl.

(** [ast.File]. [file.Imports] and the specs of the import declarations
    hold pointers into the same [Store] of [ImportSpec] objects. *)
Record File := mkFile {
  FileName : string;
  Store : gmap loc ImportSpec;
  Imports : list loc;
  Decls : list Decl
}.

#[global] Instance Token_eq_dec : EqDecision Token.
Proof. solve_decision. Defined.
#[global] Instance ImportSpec_eq_dec : EqDecision ImportSpec.
Proof. solve_decision. Defined.
#[global] Instance Spec_eq_dec : EqDecision Spec.
Proof. solve_decision. Defined.
#[global] Instance Decl_eq_dec : EqDecision Decl.
Proof. solve_decision. Defined.

(** ** The part of [go/loader] the programs touch *)

(** [loader.PkgSpec], as appended by [conf.CreateFromFilenames]. *)
Record PkgSpec := mkPkgSpec { SpecPath : string; Filenames : list string }.

Record Config := mkConfig { CreatePkgs : list PkgSpec; ImportPkgs : list string }.

Definition CreateFromFilenames (conf : Config) (path filename : string) : Config :=
  {| CreatePkgs := CreatePkgs conf ++ [mkPkgSpec path [filename]];
     ImportPkgs := ImportPkgs conf |}.

(** [*loader.PackageInfo]: [PkgAddr] is the pointer itself, [PkgPath] is
    what [pkg.String()] returns, [PkgImports] the paths it imports. *)
Record PackageInfo := mkPackageInfo {
  PkgAddr : positive;
  PkgPath : string;
  PkgImports : list string;
  Files : list File
}.

(** [*loader.Program]. [Imported] and [AllPackages] are Go maps; they are
    listed in the order in which the run iterates over them. *)
Record Program := mkProgram {
  Created : list PackageInfo;
  Imported : list PackageInfo;
  AllPackages : list PackageInfo
}.

(** [prog.InitialPackages()]. *)
Definition InitialPackages (prog : Program) : list PackageInfo :=
  Created prog ++ Imported prog.

(** ** The outside world *)

Definition Disk := gmap string string.

(** What a run does that can be observed from outside, in order. *)
Inductive Event :=
| EvMkdir (dir : string)
| EvWriteFile (path data : string) (ok : bool)
| EvFromArgs (args : list string) (ok : bool)
| EvLoad (ok : bool)
| EvNewTransformer (i : nat) (ok : bool)
| EvTransform (i : nat) (filename : string)
| EvStderr (s : string)
| EvStdout (s : string)
| EvWriteAST (filename : string) (ok : bool).

#[global] Instance Event_eq_dec : EqDecision Event.
Proof. solve_decision. Defined.

(** [eg.Transformer] is opaque; it is identified by the template it was
    built from. *)
Definition Transformer := PackageInfo.

(** The collaborators: the file system, the loader and the rewrite engine.
    Each operation may fail ([false] or [None]). *)
Record Env := mkEnv {
  os_Mkdir : string -> Disk -> Disk;
  ioutil_WriteFile : string -> string -> Disk -> Disk * bool;
  loader_FromArgs : Config -> list string -> option Config;
  loader_Load : Config -> Disk -> option Program;
  eg_NewTransformer : PackageInfo -> File -> bool -> option Transformer;
  eg_Transform : Transformer -> PackageInfo -> File -> File * Z;
  eg_WriteAST : string -> File -> Disk -> Disk * bool;
  eg_Help : string;
  loader_FromArgsUsage : string
}.

Record World := mkWorld {
  templateSeq : Z;
  disk : Disk;
  trace : list Event
}.

(** The state of a freshly started process. *)
Definition init_world (d : Disk) : World :=
  {| templateSeq := 0; disk := d; trace := [] |}.

(** ** Panics, exits and the monad of the run *)

Inductive PanicCause :=
| WriteFileFailed | FromArgsFailed | LoadFailed | NewTransformerFailed
| WriteASTFailed | IndexOutOfRange | NilDereference | TypeAssertionFailed.

Inductive Outcome (A : Type) :=
| Ok (a : A)
| Panic (c : PanicCause)
| Exit (code : Z).
Arguments Ok {A} a.
Arguments Panic {A} c.
Arguments Exit {A} code.

Definition M (A : Type) : Type := World -> Outcome A * World.

Definition ret {A} (a : A) : M A := fun w => (Ok a, w).

Definition bind {A B} (m : M A) (k : A -> M B) : M B :=
  fun w =>
    match m w with
    | (Ok a, w') => k a w'
    | (Panic c, w') => (Panic c, w')
    | (Exit n, w') => (Exit n, w')
    end.

Definition panic {A} (c : PanicCause) : M A := fun w => (Panic c, w).
Definition os_Exit {A} (code : Z) : M A := fun w => (Exit code, w).

Definition emit (e : Event) : M unit :=
  fun w => (Ok tt, {| templateSeq := templateSeq w; disk := disk w;
                      trace := trace w ++ [e] |}).

Declare Scope run_scope.
Delimit Scope run_scope with run.
Notation "x <- m ;; k" := (bind m (fun x => k))
  (at level 100, m at next level, right associativity) : run_scope.
Notation "m ;;; k" := (bind m (fun _ => k))
  (at level 100, right associativity) : run_scope.
Open Scope run_scope.

(** [for _, x := range xs { acc = body(x, acc) }]. *)
Fixpoint for_range {A S} (xs : list A) (body : A -> S -> M S) (acc : S) : M S :=
  match xs with
  | [] => ret acc
  | x :: rest => acc' <- body x acc ;; for_range rest body acc'
  end.

(** A pure variant, for loops that cannot fail. *)
Definition for_pure {A S} (xs : list A) (body : A -> S -> S) (acc : S) : S :=
  fold_left (fun s x => body x s) xs acc.

(* ===================================================================== *)
(** * The template expander *)
(* ===================================================================== *)

Record substitution := mkSub {
  signature : string;
  beforeBody : string;
  afterBody : string
}.

Inductive rewriteType := rewriteRequire | rewriteAssert.

Record argList := mkArg { decl : string; arg : string }.

Definition argLists : list argList :=
  [ mkArg "" "";
    mkArg ", m0 interface{}" ", m0";
    mkArg ", m0, m1 interface{}" ", m0, m1";
    mkArg ", m0, m1, m2 interface{}" ", m0, m1, m2";
    mkArg ", m0, m1, m2, m3 interface{}" ", m0, m1, m2, m3";
    mkArg ", m0, m1, m2, m3, m4 interface{}" ", m0, m1, m2, m3, m4" ].

Definition dir : string := "/tmp/.templatestmp".

(** The three places where [addTemplates] of [src/unnamed/part_000] and of
    [src/untestify.go] differ: the placeholder of the trailing parameter
    declarations ([DECLS] or [ARGDECLS]), the width of the sequence number
    in the package name ([%08d] or [%04d]), and whether the import of the
    helper package [h] is added when the after-body mentions it. *)
Record Dialect := mkDialect {
  declsTok : string;
  seqWidth : nat;
  helperImport : bool
}.

Definition get_templateSeq : M Z := fun w => (Ok (templateSeq w), w).

Definition set_templateSeq (z : Z) : M unit :=
  fun w => (Ok tt, {| templateSeq := z; disk := disk w; trace := trace w |}).

Definition Mkdir (E : Env) (d : string) : M unit :=
  fun w => (Ok tt, {| templateSeq := templateSeq w;
                      disk := os_Mkdir E d (disk w);
                      trace := trace w ++ [EvMkdir d] |}).

Definition WriteFile (E : Env) (path data : string) : M bool :=
  fun w =>
    let r := ioutil_WriteFile E path data (disk w) in
    (Ok (snd r), {| templateSeq := templateSeq w;
                    disk := fst r;
                    trace := trace w ++ [EvWriteFile path data (snd r)] |}).

(** The [switch rType] and the [if strings.Contains(after, "h.")] at the
    head of the outer loop body: (before, after, imports). *)
Definition family_text (D : Dialect) (rType : rewriteType) (sub : substitution)
  : string * string * string :=
  let '(before, after, imports) :=
    match rType with
    | rewriteAssert =>
        (Replace (beforeBody sub) "XX" "assert",
         Replace (afterBody sub) "YY" "gexpect",
         nl ++ " " ++ dq ++ "vendor/github.com/stretchr/testify/assert" ++ dq ++ nl
            ++ "gexpect " ++ dq ++ "github.com/grailbio/testutil/expect" ++ dq ++ nl)
    | rewriteRequire =>
        (Replace (beforeBody sub) "XX" "require",
         Replace (afterBody sub) "YY" "gassert",
         nl ++ " " ++ dq ++ "vendor/github.com/stretchr/testify/require" ++ dq ++ nl
            ++ "gassert " ++ dq ++ "github.com/grailbio/testutil/assert" ++ dq ++ nl)
    end in
  let imports :=
    if helperImport D && Contains after "h."
    then imports ++ nl ++ dq ++ "github.com/grailbio/testutil/h" ++ dq ++ nl
    else imports in
  (before, after, imports).

Definition pkgName_of (D : Dialect) (seq : Z) : string :=
  "template" ++ fmt_d0 (seqWidth D) seq.

Definition path_of (pkgName : string) : string :=
  filepath_Join dir (pkgName ++ ".go").

(** The text of one template unit. *)
Definition body_of (D : Dialect) (pkgName : string)
    (fam : string * string * string) (sub : substitution) (a : argList) : string :=
  let '(before0, after0, imports) := fam in
  let sig := Replace (signature sub) (declsTok D) (decl a) in
  let sig := Replace sig "TT" "testing.TB" in
  let before := Replace before0 "ARGS" (arg a) in
  let after := Replace after0 "ARGS" (arg a) in
  nl ++ "package " ++ pkgName ++ nl
     ++ "import (" ++ nl
     ++ tab ++ dq ++ "testing" ++ dq ++ nl
     ++ "  " ++ imports ++ nl
     ++ ")" ++ nl
     ++ nl
     ++ "func before(" ++ sig ++ ") { " ++ before ++ " }" ++ nl
     ++ "func after(" ++ sig ++ ") { " ++ after ++ " }" ++ nl.

(** The body of the inner loop: one arity variant of one rule. *)
Definition emit_unit (E : Env) (D : Dialect)
    (fam : string * string * string) (sub : substitution)
    (a : argList) (st : Config * Z) : M (Config * Z) :=
  let '(conf, n) := st in
  seq <- get_templateSeq ;;
  let pkgName := pkgName_of D seq in
  set_templateSeq (int_incr seq) ;;;
  let path := path_of pkgName in
  let body := body_of D pkgName fam sub a in
  ok <- WriteFile E path body ;;
  if ok : bool
  then ret (CreateFromFilenames conf pkgName path, int_incr n)
  else panic WriteFileFailed.

Definition addTemplates (E : Env) (D : Dialect)
    (conf : Config) (rType : rewriteType) (subs : list substitution)
  : M (Config * Z) :=
  Mkdir E dir ;;;
  for_range subs
    (fun sub st =>
       let fam := family_text D rType sub in
       for_range argLists (emit_unit E D fam sub) st)
    (conf, 0).

(** The two calls at the head of [main] / [doMain]:
    [nTemplate := addTemplates(&conf, rewriteRequire, substitutions)] and
    [nTemplate += addTemplates(&conf, rewriteAssert, substitutions)]. *)
Definition expand (E : Env) (D : Dialect) (conf : Config)
    (subs : list substitution) : M (Config * Z) :=
  r1 <- addTemplates E D conf rewriteRequire subs ;;
  r2 <- addTemplates E D (fst r1) rewriteAssert subs ;;
  ret (fst r2, int_add (snd r1) (snd r2)).

(** ** What the expander is expected to produce *)

(** One triple (family, rule, arity variant). *)
Definition Triple : Type := rewriteType * substitution * argList.

Definition family_jobs (rType : rewriteType) (subs : list substitution)
  : list Triple :=
  flat_map (fun sub => map (fun a => (rType, sub, a)) argLists) subs.

(** All triples, in the order of the run. *)
Definition triples (subs : list substitution) : list Triple :=
  family_jobs rewriteRequire subs ++ family_jobs rewriteAssert subs.

Fixpoint enumerate_from {A} (s : Z) (l : list A) : list (Z * A) :=
  match l with
  | [] => []
  | x :: r => (s, x) :: enumerate_from (s + 1) r
  end.

(** The unit registered for the triple numbered [seq]. *)
Definition unit_spec (D : Dialect) (it : Z * Triple) : PkgSpec :=
  let '(seq, (rType, sub, a)) := it in
  mkPkgSpec (pkgName_of D seq) [path_of (pkgName_of D seq)].

(** The file written for it. *)
Definition unit_write (D : Dialect) (it : Z * Triple) : Event :=
  let '(seq, (rType, sub, a)) := it in
  EvWriteFile (path_of (pkgName_of D seq))
    (body_of D (pkgName_of D seq) (family_text D rType sub) sub a) true.

Definition writes_never_fail (E : Env) : Prop :=
  forall path data d, snd (ioutil_WriteFile E path data d) = true.

(** What a pass over a list of triples leaves behind when it completes. *)
Definition pass_result (D : Dialect) (jobs : list Triple) (conf : Config) (n : Z)
    (w : World) (out : Outcome (Config * Z) * World) : Prop :=
  exists conf' w',
    out = (Ok (conf', n + int_of_len jobs), w')
    /\ CreatePkgs conf'
       = (CreatePkgs conf
            ++ map (unit_spec D) (enumerate_from (templateSeq w) jobs))%list
    /\ ImportPkgs conf' = ImportPkgs conf
    /\ templateSeq w' = templateSeq w + int_of_len jobs
    /\ trace w'
       = (trace w ++ map (unit_write D) (enumerate_from (templateSeq w) jobs))%list.

(* ===================================================================== *)
(** * The import reconciler *)
(* ===================================================================== *)

(** The Go slices [file.Imports] and [d.Specs] are compacted in place:
    the loop reads element [i] of the backing array and writes the kept
    elements at [j <= i]. [k] is the number of iterations left. *)

Section Reconciler.

(** How the first loop tests for a substring: [strings.Contains] in
    [src/unnamed/part_000], [strings.Index(..) >= 0] in
    [src/untestify.go]. The second loop uses [strings.Index] in both. *)
Variable has1 : string -> string -> bool.

Definition has2 (s sub : string) : bool := Index s sub >=? 0.

Fixpoint imports_loop (store : gmap loc ImportSpec) (k i : nat)
    (arr : list loc) (j : nat) : Outcome (list loc * nat) :=
  match k with
  | O => Ok (arr, j)
  | S k' =>
      match arr !! i with
      | None => Panic IndexOutOfRange
      | Some imp =>
          match store !! imp with
          | None => Panic NilDereference
          | Some spec =>
              if has1 (Path spec) "/testify/require"
              then imports_loop store k' (S i) arr j
              else if has1 (Path spec) "/testify/assert"
              then imports_loop store k' (S i) arr j
              else imports_loop store k' (S i) (<[j:=imp]> arr) (S j)
          end
      end
  end.

(** [tmp := ast.Ident{}; tmp.Name = alias; imp.Name = &tmp]. *)
Definition set_Name (alias : string) (imp : ImportSpec) : ImportSpec :=
  {| Name := Some alias; Path := Path imp |}.

(** The two alias assignments of the second loop, on the object at [l]. *)
Definition rename (l : loc) (store : gmap loc ImportSpec) : gmap loc ImportSpec :=
  let store1 :=
    match store !! l with
    | Some imp =>
        if has2 (Path imp) "github.com/grailbio/testutil/expect"
        then <[l := set_Name "gexpect" imp]> store else store
    | None => store
    end in
  match store1 !! l with
  | Some imp =>
      if has2 (Path imp) "github.com/grailbio/testutil/assert"
      then <[l := set_Name "gassert" imp]> store1 else store1
  | None => store1
  end.

Fixpoint specs_loop (k i : nat) (arr : list Spec) (j : nat)
    (store : gmap loc ImportSpec)
  : Outcome (list Spec * nat * gmap loc ImportSpec) :=
  match k with
  | O => Ok (arr, j, store)
  | S k' =>
      match arr !! i with
      | None => Panic IndexOutOfRange
      | Some SOther => Panic TypeAssertionFailed
      | Some (SImport l as x) =>
          match store !! l with
          | None => Panic NilDereference
          | Some imp =>
              if has2 (Path imp) "/testify/require"
              then specs_loop k' (S i) arr j store
              else if has2 (Path imp) "/testify/assert"
              then specs_loop k' (S i) arr j store
              else specs_loop k' (S i) (<[j:=x]> arr) (S j) (rename l store)
          end
      end
  end.

(** The body of [for _, d := range file.Decls]; the state is the store
    and the running count [n]. The declaration is updated through its
    pointer. *)
Definition decl_step (d : Decl) (st : gmap loc ImportSpec * Z)
  : Outcome (Decl * (gmap loc ImportSpec * Z)) :=
  let '(store, n) := st in
  match d with
  | GenDecl IMPORT specs =>
      match specs_loop (length specs) 0 specs 0 store with
      | Ok (arr, j, store') =>
          if decide (j ≠ length specs)
          then Ok (GenDecl IMPORT (take j arr), (store', int_incr n))
          else Ok (GenDecl IMPORT arr, (store', n))
      | Panic c => Panic c
      | Exit z => Exit z
      end
  | _ => Ok (d, st)
  end.

Fixpoint decls_loop (ds : list Decl) (st : gmap loc ImportSpec * Z)
  : Outcome (list Decl * (gmap loc ImportSpec * Z)) :=
  match ds with
  | [] => Ok ([], st)
  | d :: rest =>
      match decl_step d st with
      | Ok (d', st') =>
          match decls_loop rest st' with
          | Ok (rest', st'') => Ok (d' :: rest', st'')
          | Panic c => Panic c
          | Exit z => Exit z
          end
      | Panic c => Panic c
      | Exit z => Exit z
      end
  end.

(** The whole pass, with the count starting from [n0]. *)
Definition rewriteImportsFrom (n0 : Z) (file : File) : Outcome (File * Z) :=
  match imports_loop (Store file) (length (Imports file)) 0 (Imports file) 0 with
  | Ok (arr, j) =>
      let '(imports', n1) :=
        if decide (j ≠ length (Imports file))
        then (take j arr, int_incr n0)
        else (arr, n0) in
      match decls_loop (Decls file) (Store file, n1) with
      | Ok (decls', (store', n2)) =>
          Ok ({| FileName := FileName file; Store := store';
                 Imports := imports'; Decls := decls' |}, n2)
      | Panic c => Panic c
      | Exit z => Exit z
      end
  | Panic c => Panic c
  | Exit z => Exit z
  end.

End Reconciler.

(** ** Reading the two import representations of a file *)

(** The specs of the import declarations, in order. *)
Definition decl_import_specs (ds : list Decl) : list Spec :=
  flat_map (fun d => match d with GenDecl IMPORT specs => specs | _ => [] end) ds.

Definition spec_locs (xs : list Spec) : list loc :=
  flat_map (fun x => match x with SImport l => [l] | SOther => [] end) xs.

(** The [ImportSpec] pointers held by the declaration list. *)
Definition decl_imports (file : File) : list loc :=
  spec_locs (decl_import_specs (Decls file)).

(** What a list of pointers describes: (path, alias) pairs. *)
Definition described (store : gmap loc ImportSpec) (ls : list loc)
  : list (option (string * option string)) :=
  map (fun l => (fun imp => (Path imp, Name imp)) <$> store !! l) ls.

(** A path that the pass removes. *)
Definition is_testify (p : string) : bool :=
  Contains p "/testify/require" || Contains p "/testify/assert".

(** The alias after the two assignments of the second loop: [gexpect] is
    set first, [gassert] second, each overwriting what was there. *)
Definition renamed_alias (p : string) (old : option string) : option string :=
  let a1 :=
    if Contains p "github.com/grailbio/testutil/expect" then Some "gexpect"
    else old in
  if Contains p "github.com/grailbio/testutil/assert" then Some "gassert"
  else a1.

(** A file as [go/parser] and [astutil.AddImport] leave it: every pointer
    is live, import declarations hold import specs only, and
    [file.Imports] lists the very objects of the import declarations. *)
Definition live (file : File) (l : loc) : Prop := is_Some (Store file !! l).

Definition well_formed (file : File) : Prop :=
  Forall (live file) (Imports file)
  /\ Forall (fun x => match x with SImport l => live file l | SOther => False end)
            (decl_import_specs (Decls file)).

Definition shared_imports (file : File) : Prop :=
  well_formed file /\ forall l, l ∈ Imports file <-> l ∈ decl_imports file.

(* ===================================================================== *)
(** * The drivers *)
(* ===================================================================== *)

Definition lift {A} (r : Outcome A) : M A := fun w => (r, w).

(** [if err != nil { log.Panic(err) }] after a call that returns a value. *)
Definition must {A} (c : PanicCause) (r : option A) : M A :=
  match r with
  | Some a => ret a
  | None => panic c
  end.

Definition is_some {A} (r : option A) : bool :=
  match r with Some _ => true | None => false end.

Definition FromArgs (E : Env) (conf : Config) (args : list string)
  : M (option Config) :=
  let r := loader_FromArgs E conf args in
  emit (EvFromArgs args (is_some r)) ;;; ret r.

Definition Load (E : Env) (conf : Config) : M (option Program) :=
  fun w =>
    let r := loader_Load E conf (disk w) in
    (emit (EvLoad (is_some r)) ;;; ret r) w.

Definition NewTransformer (E : Env) (i : nat) (template : PackageInfo)
    (file : File) (verbose : bool) : M (option Transformer) :=
  let r := eg_NewTransformer E template file verbose in
  emit (EvNewTransformer i (is_some r)) ;;; ret r.

Definition WriteAST (E : Env) (filename : string) (file : File) : M bool :=
  fun w =>
    let r := eg_WriteAST E filename file (disk w) in
    (Ok (snd r), {| templateSeq := templateSeq w;
                    disk := fst r;
                    trace := trace w ++ [EvWriteAST filename (snd r)] |}).

(** [a[i]] on a slice. *)
Definition index {A} (l : list A) (i : nat) : M A :=
  must IndexOutOfRange (l !! i).

(** [for _, xform := range xforms { n += xform.Transform(&pkg.Info, pkg.Pkg, file) }]:
    the file is rewritten in place and the counts are added up. *)
Definition apply_xforms (E : Env) (xforms : list Transformer)
    (pkg : PackageInfo) (file : File) (n : Z) : File * Z :=
  for_pure xforms
    (fun xform st =>
       let r := eg_Transform E xform pkg (fst st) in
       (fst r, int_add (snd st) (snd r)))
    (file, n).

(** The report and the write at the end of the file loop body. *)
Definition persist (E : Env) (file : File) (n : Z) : M unit :=
  let filename := FileName file in
  emit (EvStderr ("=== " ++ filename ++ " (" ++ fmt_d n ++ " matches)" ++ nl)) ;;;
  ok <- WriteAST E filename file ;;
  if ok : bool then ret tt else panic WriteASTFailed.

(** How a run ends for the shell: a Go panic exits with status 2. *)
Definition exit_status {A} (r : Outcome A) : Z :=
  match r with
  | Ok _ => 0
  | Panic _ => 2
  | Exit code => code
  end.

(** ** [src/unnamed/part_000] *)

Module Part000.

Definition usage (E : Env) : string :=
  "untestify: convert stretcher/testify to grailbio.com/testutil." ++ nl
  ++ nl
  ++ "Usage: untestify [flags] packages..." ++ nl
  ++ nl
  ++ "-help            show detailed help message" ++ nl
  ++ "-v               show verbose matcher diagnostics" ++ nl
  ++ loader_FromArgsUsage E.

Definition substitutions : list substitution :=
[
  mkSub "t TT, err error DECLS" "XX.NoError(t, err ARGS)" "YY.NoError(t, err ARGS)";
  mkSub "t TT, err error, f string DECLS" "XX.NoErrorf(t, err, f ARGS)" "YY.NoError(t, err, f ARGS)";
  mkSub "t TT, err error DECLS" "XX.Error(t, err ARGS)" "YY.NotNil(t, err ARGS)";
  mkSub "t TT, err error, a string DECLS" "XX.EqualError(t, err, a ARGS)" "YY.EQ(t, err, a ARGS)";
  mkSub "t TT, err error, a, f string DECLS" "XX.EqualErrorf(t, err, a, f ARGS)" "YY.EQ(t, err, a, f ARGS)";
  mkSub "t TT, a interface{}, f string DECLS" "XX.NotNilf(t, a, f ARGS)" "YY.NotNil(t, a, f ARGS)";
  mkSub "t TT, a interface{} DECLS" "XX.Nil(t, a ARGS)" "YY.Nil(t, a ARGS)";
  mkSub "t TT, a, b interface{} DECLS" "XX.Equal(t, a, b ARGS)" "YY.EQ(t, b, a ARGS)";
  mkSub "t TT, a, b interface{}, f string DECLS" "XX.Equalf(t, a, b, f ARGS)" "YY.EQ(t, b, a, f ARGS)";
  mkSub "t TT, a, b interface{} DECLS" "XX.NotEqual(t, a, b ARGS)" "YY.EQ(t, b, a ARGS)";
  mkSub "t TT, a, b interface{}, f string DECLS" "XX.NotEqualf(t, a, b, f ARGS)" "YY.NEQ(t, b, a, f ARGS)";
  mkSub "t TT, a, b interface{} DECLS" "XX.Regexp(t, a, b ARGS)" "YY.Regexp(t, b, a ARGS)";
  mkSub "t TT, a bool DECLS" "XX.True(t, a ARGS)" "YY.True(t, a ARGS)";
  mkSub "t TT, a bool  DECLS" "XX.False(t, a ARGS)" "YY.False(t, a ARGS)";
  mkSub "t TT, a bool, f string  DECLS" "XX.Truef(t, a, f ARGS)" "YY.True(t, a, f ARGS)";
  mkSub "t TT, a bool, f string DECLS" "XX.Falsef(t, a, f ARGS)" "YY.False(t, a, f ARGS)";
  mkSub "t TT, a, b interface{} DECLS" "XX.Contains(t, a, b ARGS)" "YY.That(t, a, h.Contains(b) ARGS)";
  mkSub "t TT, a, b interface{}, f string DECLS" "XX.Containsf(t, a, b, f ARGS)" "YY.That(t, a, h.Contains(b), f ARGS)";
  mkSub "t TT, a interface{} DECLS" "XX.Zero(t, a ARGS)" "YY.That(t, a, h.Zero() ARGS)";
  mkSub "t TT, a interface{}, f string DECLS" "XX.Zerof(t, a, f ARGS)" "YY.EQ(t, a, h.Zero(), f ARGS)";
  mkSub "t TT, a interface{} DECLS" "XX.NotZero(t, a ARGS)" "YY.That(t, a, h.Not(h.Zero()) ARGS)";
  mkSub "t TT, a interface{}, f string DECLS" "XX.NotZerof(t, a, f ARGS)" "YY.EQ(t, a, h.Not(h.Zero()), f ARGS)" ].

Definition dialect : Dialect :=
  {| declsTok := "DECLS"; seqWidth := 8; helperImport := true |}.

Definition rewriteImports (file : File) : Outcome (File * Z) :=
  rewriteImportsFrom Contains 0 file.

(** The loop that builds one matcher per template unit. *)
Definition make_xforms (E : Env) (verboseFlag : bool) (iprog : Program)
    (nTemplate : Z) : M (list Transformer) :=
  for_range (seq 0 (Z.to_nat nTemplate))
    (fun i xforms =>
       template <- index (Created iprog) i ;;
       file0 <- index (Files template) 0 ;;
       r <- NewTransformer E i template file0 verboseFlag ;;
       xform <- must NewTransformerFailed r ;;
       ret (xforms ++ [xform])%list)
    [].

Definition skip_package (pkg : PackageInfo) : bool :=
  Contains (PkgPath pkg) "template000".

Definition process_file (E : Env) (xforms : list Transformer)
    (pkg : PackageInfo) (file : File) : M unit :=
  let '(file1, n) := apply_xforms E xforms pkg file 0 in
  r <- lift (rewriteImports file1) ;;
  let '(file2, k) := r in
  let n := int_add n k in
  if n =? 0 then ret tt else persist E file2 n.

Definition process_package (E : Env) (xforms : list Transformer)
    (pkg : PackageInfo) : M unit :=
  emit (EvStderr ("=== Package " ++ PkgPath pkg ++ " ("
                    ++ fmt_d (int_of_len (Files pkg)) ++ " files)" ++ nl)) ;;;
  for_range (Files pkg) (fun file _ => process_file E xforms pkg file) tt.

Definition package_loop (E : Env) (xforms : list Transformer)
    (pkgs : list PackageInfo) : M unit :=
  for_range pkgs
    (fun pkg _ =>
       if skip_package pkg then ret tt else process_package E xforms pkg)
    tt.

Definition main (E : Env) (helpFlag verboseFlag : bool) (args : list string)
  : M unit :=
  if helpFlag then emit (EvStderr (eg_Help E)) ;;; os_Exit 2
  else if (length args =? 0)%nat then emit (EvStderr (usage E)) ;;; os_Exit 1
  else
    let conf := {| CreatePkgs := []; ImportPkgs := [] |} in
    r <- expand E dialect conf substitutions ;;
    let nTemplate := snd r in
    c <- FromArgs E (fst r) args ;;
    conf <- must FromArgsFailed c ;;
    p <- Load E conf ;;
    iprog <- must LoadFailed p ;;
    xforms <- make_xforms E verboseFlag iprog nTemplate ;;
    package_loop E xforms (InitialPackages iprog).

End Part000.

(** ** [src/untestify.go] *)

Module Untestify.

Definition usage (E : Env) : string :=
  "eg: an example-based refactoring tool." ++ nl
  ++ nl
  ++ "Usage: eg -t template.go [-w] [-transitive] <args>..." ++ nl
  ++ nl
  ++ "-help            show detailed help message" ++ nl
  ++ "-t template.go" ++ tab ++ " specifies the template file (use -help to see explanation)" ++ nl
  ++ "-w          " ++ tab ++ " causes files to be re-written in place." ++ nl
  ++ "-transitive " ++ tab ++ " causes all dependencies to be refactored too." ++ nl
  ++ "-v               show verbose matcher diagnostics" ++ nl
  ++ loader_FromArgsUsage E.

Definition substitutions : list substitution :=
[
  mkSub "t TT, err error ARGDECLS" "XX.NoError(t, err ARGS)" "YY.NoError(t, err ARGS)";
  mkSub "t TT, err error, f string ARGDECLS" "XX.NoErrorf(t, err, f ARGS)" "YY.NoError(t, err, f ARGS)";
  mkSub "t TT, err error ARGDECLS" "XX.Error(t, err ARGS)" "YY.NotNil(t, err ARGS)";
  mkSub "t TT, a interface{}, f string ARGDECLS" "XX.NotNilf(t, a, f ARGS)" "YY.NotNil(t, a, f ARGS)";
  mkSub "t TT, a interface{} ARGDECLS" "XX.Nil(t, a ARGS)" "YY.Nil(t, a ARGS)";
  mkSub "t TT, a, b interface{} ARGDECLS" "XX.Equal(t, a, b ARGS)" "YY.EQ(t, b, a ARGS)";
  mkSub "t TT, a, b interface{}, f string ARGDECLS" "XX.Equalf(t, a, b, f ARGS)" "YY.EQ(t, b, a, f ARGS)";
  mkSub "t TT, a, b interface{} ARGDECLS" "XX.Regexp(t, a, b ARGS)" "YY.Regexp(t, b, a ARGS)";
  mkSub "t TT, a bool ARGDECLS" "XX.True(t, a ARGS)" "YY.True(t, a ARGS)";
  mkSub "t TT, a bool  ARGDECLS" "XX.False(t, a ARGS)" "YY.False(t, a ARGS)";
  mkSub "t TT, a bool, f string  ARGDECLS" "XX.Truef(t, a, f ARGS)" "YY.True(t, a, f ARGS)";
  mkSub "t TT, a bool, f string ARGDECLS" "XX.Falsef(t, a, f ARGS)" "YY.False(t, a, f ARGS)" ].

Definition dialect : Dialect :=
  {| declsTok := "ARGDECLS"; seqWidth := 4; helperImport := false |}.

(** The block under [if true] in the file loop: the import pass, written
    out in place and counting on top of the matcher count [n]. *)
Definition inline_rewriteImports (n : Z) (file : File) : Outcome (File * Z) :=
  rewriteImportsFrom has2 n file.

(** The loop that collects the templates and builds their matchers. *)
Definition make_xforms (E : Env) (verboseFlag : bool) (iprog : Program)
    (nTemplate : Z) : M (list Transformer * list PackageInfo) :=
  for_range (seq 0 (Z.to_nat nTemplate))
    (fun i st =>
       template <- index (Created iprog) i ;;
       let templates := (snd st ++ [template])%list in
       file0 <- index (Files template) 0 ;;
       r <- NewTransformer E i template file0 verboseFlag ;;
       xform <- must NewTransformerFailed r ;;
       ret ((fst st ++ [xform])%list, templates))
    ([], []).

(** [pkg == t] compares pointers. *)
Definition isTemplate (templates : list PackageInfo) (pkg : PackageInfo) : bool :=
  existsb (fun t => Pos.eqb (PkgAddr pkg) (PkgAddr t)) templates.

Definition skip_package (templates : list PackageInfo) (pkg : PackageInfo) : bool :=
  let it := isTemplate templates pkg in
  if Index (PkgPath pkg) "template0" >=? 0 then true
  else if it then true
  else false.

Definition process_file (E : Env) (xforms : list Transformer)
    (pkg : PackageInfo) (file : File) : M unit :=
  let '(file1, n) := apply_xforms E xforms pkg file 0 in
  r <- lift (inline_rewriteImports n file1) ;;
  let '(file2, n) := r in
  if n =? 0 then ret tt else persist E file2 n.

Definition process_package (E : Env) (xforms : list Transformer)
    (pkg : PackageInfo) : M unit :=
  emit (EvStdout ("Handel package " ++ PkgPath pkg ++ nl)) ;;;
  for_range (Files pkg) (fun file _ => process_file E xforms pkg file) tt.

Definition package_loop (E : Env) (xforms : list Transformer)
    (templates pkgs : list PackageInfo) : M unit :=
  for_range pkgs
    (fun pkg _ =>
       if skip_package templates pkg then ret tt
       else process_package E xforms pkg)
    tt.

(** The packages the loop ranges over. *)
Definition select_pkgs (transitiveFlag : bool) (iprog : Program)
  : list PackageInfo :=
  if transitiveFlag then AllPackages iprog else InitialPackages iprog.

Definition doMain (E : Env) (transitiveFlag verboseFlag : bool)
    (args : list string) : M unit :=
  let conf := {| CreatePkgs := []; ImportPkgs := [] |} in
  r <- expand E dialect conf substitutions ;;
  let nTemplate := snd r in
  c <- FromArgs E (fst r) args ;;
  conf <- must FromArgsFailed c ;;
  p <- Load E conf ;;
  iprog <- must LoadFailed p ;;
  xt <- make_xforms E verboseFlag iprog nTemplate ;;
  package_loop E (fst xt) (snd xt) (select_pkgs transitiveFlag iprog).

Definition main (E : Env) (helpFlag transitiveFlag verboseFlag : bool)
    (args : list string) : M unit :=
  if helpFlag then emit (EvStderr (eg_Help E)) ;;; os_Exit 2
  else if (length args =? 0)%nat then emit (EvStderr (usage E)) ;;; os_Exit 1
  else doMain E transitiveFlag verboseFlag args.

End Untestify.

(* ===================================================================== *)
(** * A simulated environment and workspace *)
(* ===================================================================== *)

(** Concrete collaborators on which the programs can be run: a file system
    in which the paths listed in [unwritable] cannot be written, a loader
    over a fixed workspace of packages that loads the requested packages
    and, transitively, the packages they import, and an engine whose first
    template rewrites [require.NoError] calls. The texts of the library
    constants are stand-ins. *)

Definition quoted (p : string) : string := dq ++ p ++ dq.

Definition created_pkg (i : nat) (spec : PkgSpec) : PackageInfo :=
  {| PkgAddr := Pos.of_succ_nat i;
     PkgPath := SpecPath spec;
     PkgImports := ["testing"];
     Files := map (fun f => mkFile f ∅ [] []) (Filenames spec) |}.

(** The import paths reachable from [seen] in at most [fuel] steps. *)
Fixpoint import_closure (fuel : nat) (ws : list PackageInfo) (seen : list string)
  : list string :=
  match fuel with
  | O => seen
  | S fuel' =>
      let next :=
        flat_map
          (fun p => if bool_decide (PkgPath p ∈ seen) then PkgImports p else [])
          ws in
      import_closure fuel' ws (list_union seen next)
  end.

Definition sim_Load (ws : list PackageInfo) (conf : Config) : option Program :=
  if forallb (fun a => existsb (fun p => String.eqb (PkgPath p) a) ws)
       (ImportPkgs conf)
  then
    let created := imap created_pkg (CreatePkgs conf) in
    let imported :=
      filter (fun p => bool_decide (PkgPath p ∈ ImportPkgs conf)) ws in
    let reach := import_closure (length ws) ws (ImportPkgs conf) in
    let loaded := filter (fun p => bool_decide (PkgPath p ∈ reach)) ws in
    Some {| Created := created; Imported := imported;
            AllPackages := (created ++ loaded)%list |}
  else None.

Definition sim_rewrite_decl (d : Decl) : Decl * Z :=
  match d with
  | FuncDecl src =>
      if Contains src "require.NoError("
      then (FuncDecl (Replace src "require.NoError(" "gassert.NoError("), 1)
      else (d, 0)
  | _ => (d, 0)
  end.

Definition sim_Transform (x : Transformer) (pkg : PackageInfo) (f : File)
  : File * Z :=
  if String.eqb (PkgPath x) "template00000000"
     || String.eqb (PkgPath x) "template0000"
  then
    let rs := map sim_rewrite_decl (Decls f) in
    ({| FileName := FileName f; Store := Store f; Imports := Imports f;
        Decls := map fst rs |},
     fold_left Z.add (map snd rs) 0)
  else (f, 0).

Definition sim_render_spec (store : gmap loc ImportSpec) (x : Spec) : string :=
  match x with
  | SImport l =>
      match store !! l with
      | Some imp =>
          match Name imp with
          | Some a => tab ++ a ++ " " ++ Path imp ++ nl
          | None => tab ++ Path imp ++ nl
          end
      | None => ""
      end
  | SOther => ""
  end.

Definition sim_render (f : File) : string :=
  fold_right
    (fun d acc =>
       match d with
       | GenDecl IMPORT specs =>
           "import (" ++ nl
             ++ fold_right (fun x a => sim_render_spec (Store f) x ++ a) "" specs
             ++ ")" ++ nl ++ acc
       | GenDecl _ _ => acc
       | FuncDecl src => src ++ nl ++ acc
       | BadDecl => acc
       end)
    "" (Decls f).

Definition sim_write (unwritable : list string) (path data : string) (d : Disk)
  : Disk * bool :=
  if bool_decide (path ∈ unwritable) then (d, false)
  else (<[path := data]> d, true).

Definition sim_env (ws : list PackageInfo) (unwritable : list string) : Env :=
  {| os_Mkdir := fun _ d => d;
     ioutil_WriteFile := sim_write unwritable;
     loader_FromArgs := fun conf args =>
       Some {| CreatePkgs := CreatePkgs conf;
               ImportPkgs := (ImportPkgs conf ++ args)%list |};
     loader_Load := fun conf _ => sim_Load ws conf;
     eg_NewTransformer := fun template _ _ => Some template;
     eg_Transform := sim_Transform;
     eg_WriteAST := fun filename f => sim_write unwritable filename (sim_render f);
     eg_Help := "This tool implements example-based refactoring of expressions.";
     loader_FromArgsUsage := "<args> is a list of arguments denoting a set of initial packages." |}.

(** A test file that imports [testing] and testify's [require] and calls
    [require.NoError] once. *)
Definition test_file (name fn : string) : File :=
  {| FileName := name;
     Store := {[ 1%positive := mkImportSpec None (quoted "testing");
                 2%positive := mkImportSpec None
                                 (quoted "github.com/stretchr/testify/require") ]};
     Imports := [1%positive; 2%positive];
     Decls := [ GenDecl IMPORT [SImport 1%positive; SImport 2%positive];
                FuncDecl ("func " ++ fn ++ "(t *testing.T) { require.NoError(t, run()) }") ] |}.

(** Package [p]; package [q], which imports [p]; and a package whose path
    happens to contain [template000]. All three call the source API. *)
Definition pkg_p : PackageInfo :=
  {| PkgAddr := 1001; PkgPath := "example.com/p";
     PkgImports := ["testing"; "github.com/stretchr/testify/require"];
     Files := [test_file "/go/src/example.com/p/p_test.go" "TestP"] |}.

Definition pkg_q : PackageInfo :=
  {| PkgAddr := 1002; PkgPath := "example.com/q";
     PkgImports := ["example.com/p"; "testing"; "github.com/stretchr/testify/require"];
     Files := [test_file "/go/src/example.com/q/q_test.go" "TestQ"] |}.

Definition pkg_t : PackageInfo :=
  {| PkgAddr := 1003; PkgPath := "example.com/template000";
     PkgImports := ["testing"; "github.com/stretchr/testify/require"];
     Files := [test_file "/go/src/example.com/template000/t_test.go" "TestT"] |}.

Definition workspace : list PackageInfo := [pkg_p; pkg_q; pkg_t].

Definition env0 : Env := sim_env workspace [].

(* ===================================================================== *)
(** * The import reconciler, as a filter *)
(* ===================================================================== *)

(** What the in-place loops of the pass compute, written with [filter];
    the pass is proved equal to it below. *)

(** The import at [l] is kept: its path is none of the removed ones. *)
Definition survives (store : gmap loc ImportSpec) (l : loc) : bool :=
  match store !! l with
  | Some imp => negb (is_testify (Path imp))
  | None => false
  end.

Definition survives_spec (store : gmap loc ImportSpec) (x : Spec) : bool :=
  match x with
  | SImport l => survives store l
  | SOther => false
  end.

Definition renamed_spec (imp : ImportSpec) : ImportSpec :=
  {| Name := renamed_alias (Path imp) (Name imp); Path := Path imp |}.

Definition filter_decl (store : gmap loc ImportSpec) (d : Decl) : Decl :=
  match d with
  | GenDecl IMPORT specs => GenDecl IMPORT (filter (survives_spec store) specs)
  | _ => d
  end.

(** The declaration is an import group that loses a spec. *)
Definition shrinks (store : gmap loc ImportSpec) (d : Decl) : bool :=
  match d with
  | GenDecl IMPORT specs =>
      negb (length (filter (survives_spec store) specs) =? length specs)%nat
  | _ => false
  end.

Definition rename_all (ls : list loc) (store : gmap loc ImportSpec)
  : gmap loc ImportSpec :=
  foldl (fun s l => alter renamed_spec l s) store ls.

Definition reconciled (file : File) : File :=
  let decls' := map (filter_decl (Store file)) (Decls file) in
  {| FileName := FileName file;
     Store := rename_all (spec_locs (decl_import_specs decls')) (Store file);
     Imports := filter (survives (Store file)) (Imports file);
     Decls := decls' |}.

(** The number of containers (the import list and each import group) that
    lose an entry. *)
Definition shrunk_count (file : File) : nat :=
  (length (filter (shrinks (Store file)) (Decls file))
   + (if (length (filter (survives (Store file)) (Imports file))
          =? length (Imports file))%nat then 0 else 1))%nat.

(** Some alias of a kept import changes. *)
Definition alias_changed (file file' : File) : Prop :=
  exists l imp imp',
    l ∈ decl_imports file'
    /\ Store file !! l = Some imp /\ Store file' !! l = Some imp'
    /\ Name imp <> Name imp'.

(** ** Concrete files *)

(** A file whose only import is the destination package [expect], with
    no alias. *)
Definition expect_file : File :=
  {| FileName := "/go/src/example.com/p/e_test.go";
     Store := {[ 1%positive := mkImportSpec None
                                 (quoted "github.com/grailbio/testutil/expect") ]};
     Imports := [1%positive];
     Decls := [ GenDecl IMPORT [SImport 1%positive] ] |}.

(** A file that imports a package vendored below [expect], whose path
    contains both destination paths. *)
Definition vendored_file : File :=
  {| FileName := "/go/src/example.com/p/v_test.go";
     Store := {[ 1%positive := mkImportSpec (Some "old")
                   (quoted "github.com/grailbio/testutil/expect/vendor/github.com/grailbio/testutil/assert") ]};
     Imports := [1%positive];
     Decls := [ GenDecl IMPORT [SImport 1%positive] ] |}.

(* ===================================================================== *)
(** * Vocabulary for the properties of a run *)
(* ===================================================================== *)

(** The events of [w'] that came after those of [w]. *)
Definition new_events (w w' : World) : list Event :=
  drop (length (trace w)) (trace w').

(** The failed operation an event records, with the panic it leads to. *)
Definition failure_cause (e : Event) : option PanicCause :=
  match e with
  | EvWriteFile _ _ false => Some WriteFileFailed
  | EvFromArgs _ false => Some FromArgsFailed
  | EvLoad false => Some LoadFailed
  | EvNewTransformer _ false => Some NewTransformerFailed
  | EvWriteAST _ false => Some WriteASTFailed
  | _ => None
  end.

(** No operation has failed so far. *)
Definition clean (tr : list Event) : Prop :=
  Forall (fun e => failure_cause e = None) tr.

(** The last event is a failed operation, the first one to fail. *)
Definition aborted_by (tr : list Event) (c : PanicCause) : Prop :=
  exists tr0 e, tr = (tr0 ++ [e])%list /\ clean tr0 /\ failure_cause e = Some c.

(** A computation that stops at the first failed operation. *)
Definition guarded {A} (m : M A) : Prop :=
  forall w, clean (trace w) ->
    match m w with
    | (Ok _, w') => clean (trace w')
    | (Exit _, w') => clean (trace w')
    | (Panic c, w') => clean (trace w') \/ aborted_by (trace w') c
    end.

(** The lines printed on standard output. *)
Definition stdout_lines (tr : list Event) : list string :=
  flat_map (fun e => match e with EvStdout s => [s] | _ => [] end) tr.

(** A computation that prints nothing on standard output. *)
Definition silent {A} (m : M A) : Prop :=
  forall w, stdout_lines (trace (snd (m w))) = stdout_lines (trace w).

(** The reports and the files written back, without the events of the
    expansion and of the loading. *)
Definition report_events (tr : list Event) : list Event :=
  List.filter
    (fun e => match e with
              | EvStderr _ | EvStdout _ | EvWriteAST _ _ => true
              | _ => false
              end) tr.

(** What the file loop body does to a file in memory, and the count it
    ends with: [src/unnamed/part_000] adds the result of [rewriteImports]
    to the matcher count, [src/untestify.go] counts on in place. *)
Definition rewrite_file_part000 (E : Env) (xforms : list Transformer)
    (pkg : PackageInfo) (file : File) : Outcome (File * Z) :=
  let r := apply_xforms E xforms pkg file 0 in
  match Part000.rewriteImports (fst r) with
  | Ok (file2, k) => Ok (file2, int_add (snd r) k)
  | Panic c => Panic c
  | Exit z => Exit z
  end.

Definition rewrite_file_untestify (E : Env) (xforms : list Transformer)
    (pkg : PackageInfo) (file : File) : Outcome (File * Z) :=
  let r := apply_xforms E xforms pkg file 0 in
  Untestify.inline_rewriteImports (snd r) (fst r).

(** What [persist] leaves behind. *)
Definition persisted (E : Env) (file2 : File) (n : Z) (w : World)
  : Outcome unit * World :=
  let r := eg_WriteAST E (FileName file2) file2 (disk w) in
  ((if snd r then Ok tt else Panic WriteASTFailed),
   {| templateSeq := templateSeq w;
      disk := fst r;
      trace := (trace w
                  ++ [EvStderr ("=== " ++ FileName file2 ++ " ("
                                  ++ fmt_d n ++ " matches)" ++ nl);
                      EvWriteAST (FileName file2) (snd r)])%list |}).

(** The file loop body in terms of the count: nothing at all happens when
    the count is zero; otherwise the file is reported and handed to
    [WriteAST], once. *)
Definition file_step (E : Env) (r : Outcome (File * Z)) (w : World)
  : Outcome unit * World :=
  match r with
  | Ok (file2, n) => if n =? 0 then (Ok tt, w) else persisted E file2 n w
  | Panic c => (Panic c, w)
  | Exit z => (Exit z, w)
  end.

(** An environment in which the fourth template unit cannot be written. *)
Definition env_unwritable : Env :=
  sim_env workspace ["/tmp/.templatestmp/template00000003.go"].

(** The failed write of that unit: the first rule of the catalog, strict
    family, three trailing message arguments. *)
Definition failed_unit_write : Event :=
  let sub := mkSub "t TT, err error DECLS" "XX.NoError(t, err ARGS)"
               "YY.NoError(t, err ARGS)" in
  EvWriteFile "/tmp/.templatestmp/template00000003.go"
    (body_of Part000.dialect "template00000003"
       (family_text Part000.dialect rewriteRequire sub) sub
       (mkArg ", m0, m1, m2 interface{}" ", m0, m1, m2"))
    false.

(* ===================================================================== *)
(** * Vocabulary for further properties *)
(* ===================================================================== *)

(** The values of the Go [int] type. *)
Definition in_int (z : Z) : Prop := int_min <= z <= int_max.

(** The files handed to [WriteAST], in order. *)
Definition written_files (tr : list Event) : list string :=
  flat_map (fun e => match e with EvWriteAST f _ => [f] | _ => [] end) tr.

(** The paths handed to [ioutil.WriteFile], in order. *)
Definition written_paths (tr : list Event) : list string :=
  flat_map (fun e => match e with EvWriteFile p _ _ => [p] | _ => [] end) tr.

(** The text of the unit numbered [seq]. *)
Definition unit_text (D : Dialect) (it : Z * Triple) : string :=
  let '(seq, (rType, sub, a)) := it in
  body_of D (pkgName_of D seq) (family_text D rType sub) sub a.

(** The text still holds one of the placeholders of the rule shapes. *)
Definition has_placeholder (D : Dialect) (text : string) : bool :=
  Contains text "XX" || Contains text "YY" || Contains text "ARGS"
  || Contains text (declsTok D) || Contains text "TT".

(** The import at [l] needs nothing from the pass: its path is neither a
    removed one nor one of the two destination packages. *)
Definition untouched_path (p : string) : bool :=
  negb (is_testify p)
  && negb (Contains p "github.com/grailbio/testutil/expect")
  && negb (Contains p "github.com/grailbio/testutil/assert").

(** A file that imports only [testing] and [fmt]. *)
Definition plain_file : File :=
  {| FileName := "/go/src/example.com/p/plain_test.go";
     Store := {[ 1%positive := mkImportSpec None (quoted "testing");
                 2%positive := mkImportSpec (Some "f") (quoted "fmt") ]};
     Imports := [1%positive; 2%positive];
     Decls := [ GenDecl IMPORT [SImport 1%positive; SImport 2%positive];
                FuncDecl "func TestPlain(t *testing.T) { f.Println() }" ] |}.

(** A file whose import declaration holds a spec that is no import spec,
    which [go/parser] never produces. *)
Definition broken_file : File :=
  {| FileName := "/go/src/example.com/p/broken.go";
     Store := {[ 1%positive := mkImportSpec None (quoted "testing") ]};
     Imports := [1%positive];
     Decls := [ GenDecl IMPORT [SImport 1%positive; SOther] ] |}.

(* ===================================================================== *)
(** * What a pass over files and packages leaves behind *)
(* ===================================================================== *)

(** The counts the matchers return on a file, one after the other, each
    matcher working on the file as the one before left it. *)
Fixpoint transform_counts (E : Env) (xforms : list Transformer)
    (pkg : PackageInfo) (file : File) : list Z :=
  match xforms with
  | [] => []
  | x :: rest =>
      let r := eg_Transform E x pkg file in
      snd r :: transform_counts E rest pkg (fst r)
  end.

(** The events of the file loop body that ends with file [fst r] and
    count [snd r] and whose write succeeds. *)
Definition file_events (r : File * Z) : list Event :=
  if snd r =? 0 then []
  else [ EvStderr ("=== " ++ FileName (fst r) ++ " ("
                     ++ fmt_d (snd r) ++ " matches)" ++ nl);
         EvWriteAST (FileName (fst r)) true ].

(** The disk after that body. *)
Definition file_disk (E : Env) (d : Disk) (r : File * Z) : Disk :=
  if snd r =? 0 then d
  else fst (eg_WriteAST E (FileName (fst r)) (fst r) d).

(** The events of the pass of [src/untestify.go] over a package whose
    files end as [snd pr]. *)
Definition package_events (pr : PackageInfo * list (File * Z)) : list Event :=
  EvStdout ("Handel package " ++ PkgPath (fst pr) ++ nl)
    :: flat_map file_events (snd pr).

(** The matcher built from the first template unit of
    [src/unnamed/part_000]. *)
Definition xform0 : Transformer :=
  created_pkg 0 (mkPkgSpec "template00000000"
                   ["/tmp/.templatestmp/template00000000.go"]).

(* ===================================================================== *)
(** * Properties *)
(* ===================================================================== *)

(** ** The Go primitives on concrete inputs *)

Example Replace_ex1 :
  Replace "XX.NoError(t, err ARGS)" "XX" "require" = "require.NoError(t, err ARGS)".
Proof. reflexivity. Qed.

Example Replace_ex2 : Replace "aaaa" "aa" "b" = "bb".
Proof. reflexivity. Qed.

Example Replace_ex3 : Replace "abc" "" "X" = "XaXbXcX".
Proof. reflexivity. Qed.

Example fmt_ex1 : fmt_d0 8 263 = "00000263".
Proof. reflexivity. Qed.

Example fmt_ex2 : fmt_d0 4 12345 = "12345".
Proof. reflexivity. Qed.

Example fmt_ex3 : fmt_d0 4 (-1) = "-001".
Proof. reflexivity. Qed.

Example read_ex1 : read_d (fmt_d0 8 263) = Some 263.
Proof. reflexivity. Qed.


(** ** Arithmetic on [int] *)

Lemma int_wrap_id z : int_min <= z <= int_max -> int_wrap z = z.
Proof.
  unfold int_min, int_max, int_wrap. intros Hz.
  rewrite Z.mod_small; lia.
Qed.

Lemma int_incr_small z : 0 <= z < int_max -> int_incr z = z + 1.
Proof.
  intros Hz. unfold int_incr, int_add. apply int_wrap_id.
  unfold int_min, int_max in *. lia.
Qed.

Lemma int_add_small x y :
  0 <= x -> 0 <= y -> x + y <= int_max -> int_add x y = x + y.
Proof.
  intros Hx Hy Hxy. unfold int_add. apply int_wrap_id.
  unfold int_min, int_max in *. lia.
Qed.

Lemma int_add_0_l z : int_min <= z <= int_max -> int_add 0 z = z.
Proof. intros Hz. unfold int_add. rewrite Z.add_0_l. now apply int_wrap_id. Qed.

(** ** Sequence numbers render to distinct names *)

Lemma read_N_zero s : read_N (String "0" s) = read_N s.
Proof.
  unfold read_N. cbn [NilEmpty.uint_of_string].
  destruct (NilEmpty.uint_of_string s) as [d|]; reflexivity.
Qed.

Lemma read_N_zeros k s : read_N (zeros k ++ s) = read_N s.
Proof.
  induction k as [|k IH]; [reflexivity|].
  change (zeros (S k) ++ s) with (String "0" (zeros k ++ s)).
  now rewrite read_N_zero.
Qed.

Lemma read_N_dec n : read_N (dec_of_N n) = Some n.
Proof.
  unfold read_N, dec_of_N. rewrite NilEmpty.usu.
  now rewrite DecimalN.Unsigned.of_to.
Qed.

Lemma read_N_pad0 w n : read_N (pad0 w (dec_of_N n)) = Some n.
Proof. unfold pad0. rewrite read_N_zeros. apply read_N_dec. Qed.

Lemma read_N_minus s : read_N (String "-" s) = None.
Proof.
  unfold read_N. cbn [NilEmpty.uint_of_string].
  destruct (NilEmpty.uint_of_string s); reflexivity.
Qed.

Lemma read_d_of_read_N s n : read_N s = Some n -> read_d s = Some (Z.of_N n).
Proof.
  intros H. destruct s as [|c s'].
  - unfold read_d. now rewrite H.
  - unfold read_d. destruct (Ascii.eqb_spec c "-") as [->|_].
    + rewrite read_N_minus in H. discriminate H.
    + now rewrite H.
Qed.

Lemma read_fmt_d0 w z : read_d (fmt_d0 w z) = Some z.
Proof.
  unfold fmt_d0. destruct (Z.ltb_spec z 0) as [Hneg|Hpos].
  - unfold read_d. rewrite Ascii.eqb_refl, read_N_pad0. cbn [option_map].
    f_equal. lia.
  - rewrite (read_d_of_read_N _ (Z.to_N z)) by apply read_N_pad0.
    f_equal. lia.
Qed.

Lemma fmt_d0_inj w a b : fmt_d0 w a = fmt_d0 w b -> a = b.
Proof.
  intros H. apply (f_equal read_d) in H. rewrite !read_fmt_d0 in H.
  congruence.
Qed.

Lemma string_app_inv_head (p a b : string) : p ++ a = p ++ b -> a = b.
Proof.
  induction p as [|c p IH]; simpl; intros H; [exact H|].
  injection H as H. now apply IH.
Qed.

Lemma pkgName_of_inj D a b : pkgName_of D a = pkgName_of D b -> a = b.
Proof.
  unfold pkgName_of. intros H. apply string_app_inv_head in H.
  now apply fmt_d0_inj in H.
Qed.

(** ** Numbering *)

Lemma enumerate_from_app {A} (l1 l2 : list A) s :
  enumerate_from s (l1 ++ l2)%list
  = (enumerate_from s l1 ++ enumerate_from (s + int_of_len l1) l2)%list.
Proof.
  revert s. induction l1 as [|x l1 IH]; intros s; cbn [enumerate_from app].
  - unfold int_of_len. cbn. now rewrite Z.add_0_r.
  - rewrite IH. do 3 f_equal. unfold int_of_len. cbn [length]. lia.
Qed.

Lemma length_enumerate_from {A} (l : list A) s :
  length (enumerate_from s l) = length l.
Proof. revert s. induction l; intros; cbn; auto. Qed.

Lemma enumerate_from_range {A} (l : list A) s i x :
  In (i, x) (enumerate_from s l) -> s <= i < s + int_of_len l.
Proof.
  revert s. induction l as [|y l IH]; intros s; cbn [enumerate_from In].
  - tauto.
  - unfold int_of_len in *. cbn [length]. intros [Heq|Hin].
    + inversion Heq; subst. lia.
    + apply IH in Hin. lia.
Qed.

Lemma NoDup_enumerate_fst {A} (l : list A) s :
  NoDup (map fst (enumerate_from s l)).
Proof.
  revert s. induction l as [|y l IH]; intros s; cbn [enumerate_from map fst].
  - constructor.
  - constructor; [|apply IH].
    rewrite list_elem_of_In, in_map_iff. intros ((i & x) & Hi & Hin).
    cbn in Hi. subst i. apply enumerate_from_range in Hin. lia.
Qed.

Lemma unit_spec_name D it : SpecPath (unit_spec D it) = pkgName_of D (fst it).
Proof. destruct it as [seq [[r sub] a]]. reflexivity. Qed.

Lemma NoDup_unit_names {D} (l : list Triple) s :
  NoDup (map SpecPath (map (unit_spec D) (enumerate_from s l))).
Proof.
  rewrite map_map.
  rewrite (map_ext _ (fun it => pkgName_of D (fst it))) by apply unit_spec_name.
  rewrite <- (map_map fst (pkgName_of D)).
  apply NoDup_fmap_2; [|apply NoDup_enumerate_fst].
  intros a b. apply pkgName_of_inj.
Qed.

Lemma length_family_jobs r subs :
  length (family_jobs r subs) = (length subs * 6)%nat.
Proof.
  unfold family_jobs. induction subs as [|sub subs IH]; [reflexivity|].
  cbn [flat_map]. rewrite length_app, length_map.
  change (length argLists) with 6%nat. cbn [length].
  fold (flat_map (fun sub => map (fun a : argList => (r, sub, a)) argLists) subs).
  unfold Triple in *. rewrite IH. lia.
Qed.

Lemma length_triples subs : length (triples subs) = (length subs * 6 * 2)%nat.
Proof. unfold triples. rewrite length_app, !length_family_jobs. lia. Qed.

(** ** The expander when no write fails *)

Section ExpanderOk.

Variable E : Env.
Variable D : Dialect.
Hypothesis Hw : writes_never_fail E.

Lemma emit_unit_ok r sub a conf n w :
  0 <= templateSeq w < int_max -> 0 <= n < int_max ->
  let name := pkgName_of D (templateSeq w) in
  let body := body_of D name (family_text D r sub) sub a in
  emit_unit E D (family_text D r sub) sub a (conf, n) w
  = (Ok (CreateFromFilenames conf name (path_of name), n + 1),
     {| templateSeq := templateSeq w + 1;
        disk := fst (ioutil_WriteFile E (path_of name) body (disk w));
        trace := trace w ++ [EvWriteFile (path_of name) body true] |}).
Proof.
  intros Hs Hn name body.
  unfold emit_unit, bind, get_templateSeq, set_templateSeq, WriteFile, ret.
  cbn [templateSeq disk trace fst snd].
  fold name. fold body. rewrite (Hw (path_of name) body (disk w)).
  now rewrite !int_incr_small.
Qed.

Lemma inner_loop_ok r sub (args : list argList) : forall conf n w,
  0 <= templateSeq w -> templateSeq w + int_of_len args <= int_max ->
  0 <= n -> n + int_of_len args <= int_max ->
  pass_result D (map (fun a => (r, sub, a)) args) conf n w
    (for_range args (emit_unit E D (family_text D r sub) sub) (conf, n) w).
Proof.
  induction args as [|a args IH]; intros conf n w Hs Hs' Hn Hn'.
  - exists conf, w. cbn. unfold ret, int_of_len. cbn.
    rewrite ?Z.add_0_r, ?app_nil_r. auto.
  - unfold int_of_len in *. cbn [length] in *.
    cbn [for_range]. unfold bind at 1.
    rewrite emit_unit_ok by lia.
    set (w1 := {| templateSeq := templateSeq w + 1 |}).
    set (conf1 := CreateFromFilenames conf _ _).
    destruct (IH conf1 (n + 1) w1) as (conf' & w' & Heq & Hc & Hi & Ht & Htr);
      try (subst w1; cbn [templateSeq]; lia).
    exists conf', w'. rewrite Heq. unfold int_of_len in *.
    rewrite ?length_map in *.
    subst w1 conf1. cbn [templateSeq trace CreatePkgs ImportPkgs
                          CreateFromFilenames] in *.
    repeat split.
    + do 3 f_equal. cbn [map length]. lia.
    + rewrite Hc. cbn [map enumerate_from unit_spec].
      rewrite <- app_assoc. reflexivity.
    + exact Hi.
    + rewrite Ht. cbn [map length]. lia.
    + rewrite Htr. cbn [map enumerate_from unit_write].
      rewrite <- app_assoc. reflexivity.
Qed.

Lemma pass_result_app jobs1 jobs2 conf n w conf1 w1 out :
  pass_result D jobs1 conf n w (Ok (conf1, n + int_of_len jobs1), w1) ->
  pass_result D jobs2 conf1 (n + int_of_len jobs1) w1 out ->
  pass_result D (jobs1 ++ jobs2)%list conf n w out.
Proof.
  intros (c1 & w1' & Heq1 & Hc1 & Hi1 & Ht1 & Htr1)
         (c2 & w2 & Heq2 & Hc2 & Hi2 & Ht2 & Htr2).
  inversion Heq1; subst c1 w1'; clear Heq1.
  exists c2, w2. unfold int_of_len in *.
  rewrite enumerate_from_app, !map_app, length_app. unfold int_of_len.
  repeat split.
  - rewrite Heq2. do 3 f_equal. lia.
  - rewrite Hc2, Hc1, Ht1. now rewrite <- app_assoc.
  - congruence.
  - rewrite Ht2, Ht1. lia.
  - rewrite Htr2, Htr1, Ht1. now rewrite <- app_assoc.
Qed.

Lemma outer_loop_ok r (subs : list substitution) : forall conf n w,
  0 <= templateSeq w -> templateSeq w + 6 * int_of_len subs <= int_max ->
  0 <= n -> n + 6 * int_of_len subs <= int_max ->
  pass_result D (family_jobs r subs) conf n w
    (for_range subs
       (fun sub st =>
          for_range argLists (emit_unit E D (family_text D r sub) sub) st)
       (conf, n) w).
Proof.
  induction subs as [|sub subs IH]; intros conf n w Hs Hs' Hn Hn'.
  - exists conf, w. cbn. unfold ret, int_of_len. cbn.
    rewrite ?Z.add_0_r, ?app_nil_r. auto.
  - assert (Hlen : int_of_len (sub :: subs) = 1 + int_of_len subs)
      by (unfold int_of_len; cbn [length]; lia).
    assert (Hpos : 0 <= int_of_len subs) by (unfold int_of_len; lia).
    rewrite Hlen in *.
    cbn [for_range family_jobs flat_map]. unfold bind at 1.
    pose proof (inner_loop_ok r sub argLists conf n w) as Hin.
    change (int_of_len argLists) with 6 in Hin.
    specialize (Hin ltac:(lia) ltac:(lia) ltac:(lia) ltac:(lia)).
    pose proof Hin as (c1 & w1 & Heq1 & Hc1 & Hi1 & Ht1 & Htr1).
    assert (Hl6 : int_of_len (map (fun a : argList => (r, sub, a)) argLists) = 6)
      by reflexivity.
    unfold pass_result, Triple in *.
    rewrite Heq1 in Hin |- *. rewrite Hl6 in Ht1, Hin.
    eapply (pass_result_app _ _ _ _ _ c1 w1).
    + unfold pass_result, Triple. rewrite Hl6. exact Hin.
    + unfold Triple. rewrite Hl6. apply IH; lia.
Qed.

Lemma addTemplates_ok r subs conf w :
  0 <= templateSeq w -> templateSeq w + 6 * int_of_len subs <= int_max ->
  exists conf' w',
    addTemplates E D conf r subs w = (Ok (conf', 6 * int_of_len subs), w')
    /\ CreatePkgs conf'
       = (CreatePkgs conf
            ++ map (unit_spec D)
                 (enumerate_from (templateSeq w) (family_jobs r subs)))%list
    /\ ImportPkgs conf' = ImportPkgs conf
    /\ templateSeq w' = templateSeq w + 6 * int_of_len subs
    /\ trace w'
       = (trace w ++ EvMkdir dir
            :: map (unit_write D)
                 (enumerate_from (templateSeq w) (family_jobs r subs)))%list.
Proof.
  intros Hs Hs'. unfold addTemplates, bind at 1, Mkdir.
  set (w0 := {| templateSeq := templateSeq w |}).
  assert (Hpos : 0 <= int_of_len subs) by (unfold int_of_len; lia).
  destruct (outer_loop_ok r subs conf 0 w0)
    as (conf' & w' & Heq & Hc & Hi & Ht & Htr);
    try (subst w0; cbn [templateSeq]; lia).
  exists conf', w'. subst w0. cbn [templateSeq trace] in *.
  assert (Hlen : int_of_len (family_jobs r subs) = 6 * int_of_len subs).
  { unfold int_of_len. rewrite length_family_jobs. lia. }
  rewrite Hlen in *. rewrite Heq, Hc, Ht, Htr, <- app_assoc.
  rewrite Z.add_0_l. repeat split; auto.
Qed.

End ExpanderOk.

(** ** The units registered by a run *)

(** C1. Over a catalog of N rules, the two calls of [addTemplates] (one
    per rewrite family) register exactly one template unit per (family,
    rule, arity variant) triple, numbered in the order of the run: N * 6 * 2
    units in all, which is also the count the calls return, each written to
    its own file, and the package names made from [templateSeq] are
    pairwise distinct. The run is one in which no write fails (a failed
    write aborts it) and N * 12 fits the Go [int]. [D] is the dialect of
    either program. *)
Theorem expander_one_unit_per_triple (E : Env) (D : Dialect)
    (subs : list substitution) (d : Disk) :
  writes_never_fail E ->
  12 * int_of_len subs <= int_max ->
  exists conf w' W1 W2,
    expand E D {| CreatePkgs := []; ImportPkgs := [] |} subs (init_world d)
    = (Ok (conf, int_of_len subs * 6 * 2), w')
    /\ CreatePkgs conf = map (unit_spec D) (enumerate_from 0 (triples subs))
    /\ length (CreatePkgs conf) = (length subs * 6 * 2)%nat
    /\ NoDup (map SpecPath (CreatePkgs conf))
    /\ trace w' = (EvMkdir dir :: W1 ++ EvMkdir dir :: W2)%list
    /\ (W1 ++ W2)%list = map (unit_write D) (enumerate_from 0 (triples subs)).
Proof.
  intros Hw Hn.
  assert (Hpos : 0 <= int_of_len subs) by (unfold int_of_len; lia).
  unfold expand, bind.
  destruct (addTemplates_ok E D Hw rewriteRequire subs
              {| CreatePkgs := []; ImportPkgs := [] |} (init_world d))
    as (c1 & w1 & Heq1 & Hc1 & Hi1 & Ht1 & Htr1);
    try (unfold init_world; cbn [templateSeq]; lia).
  rewrite Heq1. cbn [fst snd].
  unfold init_world in Hc1, Ht1, Htr1. cbn [templateSeq trace] in Hc1, Ht1, Htr1.
  destruct (addTemplates_ok E D Hw rewriteAssert subs c1 w1)
    as (c2 & w2 & Heq2 & Hc2 & Hi2 & Ht2 & Htr2);
    try (rewrite Ht1; lia).
  rewrite Heq2. cbn [fst snd ret].
  cbn [templateSeq init_world trace CreatePkgs app] in *.
  assert (Hall : CreatePkgs c2 = map (unit_spec D) (enumerate_from 0 (triples subs))).
  { rewrite Hc2, Hc1, Ht1. unfold triples.
    rewrite enumerate_from_app, map_app. do 3 f_equal.
    unfold int_of_len. rewrite length_family_jobs. lia. }
  exists c2, w2,
    (map (unit_write D) (enumerate_from 0 (family_jobs rewriteRequire subs))),
    (map (unit_write D)
       (enumerate_from (0 + 6 * int_of_len subs) (family_jobs rewriteAssert subs))).
  repeat split.
  - rewrite int_add_small.
    + unfold ret. do 3 f_equal. lia.
    + lia.
    + lia.
    + lia.
  - exact Hall.
  - rewrite Hall, length_map, length_enumerate_from. apply length_triples.
  - rewrite Hall. apply NoDup_unit_names.
  - rewrite Htr2, Htr1, Ht1. reflexivity.
  - unfold triples. rewrite enumerate_from_app, map_app. do 3 f_equal.
    unfold int_of_len. rewrite length_family_jobs. lia.
Qed.

Lemma env0_writes_never_fail : writes_never_fail env0.
Proof. intros path data d. reflexivity. Qed.

(** The expander on the catalog of [src/unnamed/part_000] (22 rules). *)
Lemma expander_one_unit_per_triple_witness :
  writes_never_fail env0
  /\ 12 * int_of_len Part000.substitutions <= int_max
  /\ exists conf w' W1 W2,
       expand env0 Part000.dialect {| CreatePkgs := []; ImportPkgs := [] |}
         Part000.substitutions (init_world ∅)
       = (Ok (conf, int_of_len Part000.substitutions * 6 * 2), w')
       /\ CreatePkgs conf
          = map (unit_spec Part000.dialect)
              (enumerate_from 0 (triples Part000.substitutions))
       /\ length (CreatePkgs conf) = (length Part000.substitutions * 6 * 2)%nat
       /\ NoDup (map SpecPath (CreatePkgs conf))
       /\ trace w' = (EvMkdir dir :: W1 ++ EvMkdir dir :: W2)%list
       /\ (W1 ++ W2)%list
          = map (unit_write Part000.dialect)
              (enumerate_from 0 (triples Part000.substitutions)).
Proof.
  split; [intros path data d; reflexivity|].
  split; [vm_compute; discriminate|].
  apply (expander_one_unit_per_triple env0 Part000.dialect
           Part000.substitutions ∅).
  - intros path data d; reflexivity.
  - vm_compute; discriminate.
Defined.

(** ** The import pass is a filter *)

Lemma Index_from_Contains s sub : forall i,
  0 <= i -> (Index_from i s sub >=? 0) = Contains s sub.
Proof.
  induction s as [|c s IH]; intros i Hi; cbn [Index_from Contains].
  - destruct (HasPrefix "" sub); [apply Z.geb_le; lia | reflexivity].
  - destruct (HasPrefix (String c s) sub); cbn [orb].
    + apply Z.geb_le; lia.
    + apply IH. lia.
Qed.

Lemma has2_Contains s sub : has2 s sub = Contains s sub.
Proof. unfold has2, Index. now apply Index_from_Contains. Qed.

Lemma renamed_spec_idemp imp : renamed_spec (renamed_spec imp) = renamed_spec imp.
Proof.
  unfold renamed_spec, renamed_alias. cbn [Path Name].
  destruct (Contains (Path imp) "github.com/grailbio/testutil/assert");
    [reflexivity|].
  destruct (Contains (Path imp) "github.com/grailbio/testutil/expect");
    reflexivity.
Qed.

Lemma renamed_spec_Path imp : Path (renamed_spec imp) = Path imp.
Proof. reflexivity. Qed.

(** The two assignments of the second loop amount to one update. *)
Lemma rename_alter l (store : gmap loc ImportSpec) :
  rename l store = alter renamed_spec l store.
Proof.
  apply map_eq. intros l'. unfold rename.
  rewrite lookup_alter.
  destruct (store !! l) as [imp|] eqn:Hl.
  - rewrite has2_Contains.
    unfold renamed_spec, renamed_alias.
    destruct (Contains (Path imp) "github.com/grailbio/testutil/expect") eqn:He.
    + rewrite lookup_insert_eq, has2_Contains. cbn [Path set_Name].
      destruct (Contains (Path imp) "github.com/grailbio/testutil/assert") eqn:Ha.
      * rewrite insert_insert_eq. rewrite lookup_insert.
        case_decide; subst; [|reflexivity].
        rewrite ?Hl. cbn. now rewrite Ha.
      * rewrite lookup_insert.
        case_decide; subst; [|reflexivity].
        rewrite ?Hl. cbn. now rewrite Ha, He.
    + rewrite Hl, has2_Contains.
      destruct (Contains (Path imp) "github.com/grailbio/testutil/assert") eqn:Ha.
      * rewrite lookup_insert.
        case_decide; subst; [|reflexivity].
        rewrite ?Hl. cbn. now rewrite Ha.
      * case_decide; subst; [|reflexivity].
        rewrite ?Hl. cbn. rewrite Ha, He. now destruct imp.
  - rewrite Hl. case_decide; subst; [|reflexivity].
    now rewrite ?Hl.
Qed.

Lemma lookup_rename_all ls (store : gmap loc ImportSpec) l :
  rename_all ls store !! l
  = if bool_decide (l ∈ ls) then renamed_spec <$> store !! l else store !! l.
Proof.
  unfold rename_all. revert store.
  induction ls as [|a ls IH]; intros store; cbn [foldl].
  - reflexivity.
  - rewrite IH. rewrite lookup_alter.
    destruct (decide (a = l)) as [->|Hne].
    + rewrite (bool_decide_eq_true_2 (l ∈ l :: ls)) by left.
      destruct (bool_decide (l ∈ ls)); [|reflexivity].
      rewrite <- option_fmap_compose.
      destruct (store !! l) as [imp|]; cbn; [|reflexivity].
      now rewrite renamed_spec_idemp.
    + assert (Hiff : l ∈ a :: ls <-> l ∈ ls).
      { rewrite elem_of_cons.
        split; [intros [Heq|Hin]; [congruence|exact Hin] | intros Hin; now right]. }
      now rewrite (bool_decide_ext _ _ Hiff).
Qed.

Lemma rename_all_app ls1 ls2 (store : gmap loc ImportSpec) :
  rename_all (ls1 ++ ls2)%list store = rename_all ls2 (rename_all ls1 store).
Proof. unfold rename_all. apply foldl_app. Qed.

Lemma lookup_rename_all_Path ls (store : gmap loc ImportSpec) l :
  Path <$> rename_all ls store !! l = Path <$> store !! l.
Proof.
  rewrite lookup_rename_all. case_bool_decide; [|reflexivity].
  now destruct (store !! l).
Qed.

Lemma survives_rename_all ls store l :
  survives (rename_all ls store) l = survives store l.
Proof.
  unfold survives. pose proof (lookup_rename_all_Path ls store l) as H.
  destruct (rename_all ls store !! l) as [i1|], (store !! l) as [i2|];
    cbn in H; congruence.
Qed.

Lemma survives_spec_rename_all ls store x :
  survives_spec (rename_all ls store) x = survives_spec store x.
Proof. destruct x; [apply survives_rename_all | reflexivity]. Qed.

Section InPlace.

Variable has1 : string -> string -> bool.
Hypothesis Hhas1 : forall s sub, has1 s sub = Contains s sub.

Lemma survives_Some store l imp :
  store !! l = Some imp ->
  survives store l
  = negb (has1 (Path imp) "/testify/require" || has1 (Path imp) "/testify/assert").
Proof. intros H. unfold survives, is_testify. now rewrite H, !Hhas1. Qed.

(** The first loop: the prefix [take j arr] grows by the kept elements
    of the part still to be read. *)
Lemma imports_loop_spec store : forall k i arr j arr' j',
  (i + k)%nat = length arr -> (j <= i)%nat ->
  imports_loop has1 store k i arr j = Ok (arr', j') ->
  length arr' = length arr
  /\ (j' <= length arr)%nat
  /\ take j' arr' = (take j arr ++ filter (survives store) (drop i arr))%list.
Proof.
  induction k as [|k IH]; intros i arr j arr' j' Hlen Hj Hrun;
    cbn [imports_loop] in Hrun.
  - inversion Hrun; subst arr' j'; clear Hrun.
    rewrite drop_ge by lia. rewrite filter_nil, app_nil_r.
    repeat split; lia.
  - destruct (arr !! i) as [imp|] eqn:Hi; [|discriminate Hrun].
    destruct (store !! imp) as [spec|] eqn:Hs; [|discriminate Hrun].
    pose proof (survives_Some store imp spec Hs) as Hsv.
    rewrite (drop_S arr imp i Hi).
    destruct (has1 (Path spec) "/testify/require") eqn:H1;
      [|destruct (has1 (Path spec) "/testify/assert") eqn:H2];
      cbn [negb orb] in Hsv.
    + apply IH in Hrun; [|lia|lia].
      rewrite filter_cons_False by (rewrite Hsv; auto). exact Hrun.
    + apply IH in Hrun; [|lia|lia].
      rewrite filter_cons_False by (rewrite Hsv; auto). exact Hrun.
    + apply IH in Hrun; [|rewrite length_insert; lia|lia].
      rewrite length_insert in Hrun.
      destruct Hrun as (Hl' & Hj' & Htake). repeat split; [exact Hl'|exact Hj'|].
      rewrite Htake. rewrite drop_insert_lt by lia.
      rewrite filter_cons_True by (rewrite Hsv; exact I).
      rewrite (take_S_r _ j imp) by (apply list_lookup_insert_eq; lia).
      rewrite take_insert_ge by lia.
      now rewrite <- app_assoc.
Qed.

(** The loop runs to the end when every pointer is live. *)
Lemma imports_loop_total store : forall k i arr j,
  (i + k)%nat = length arr -> (j <= i)%nat ->
  Forall (fun l => is_Some (store !! l)) (drop i arr) ->
  exists arr' j', imports_loop has1 store k i arr j = Ok (arr', j').
Proof.
  induction k as [|k IH]; intros i arr j Hlen Hj Hlive; cbn [imports_loop].
  - eauto.
  - destruct (lookup_lt_is_Some_2 arr i ltac:(lia)) as [imp Hi].
    rewrite Hi. rewrite (drop_S arr imp i Hi) in Hlive.
    apply Forall_cons in Hlive as [[spec Hs] Hrest]. rewrite Hs.
    destruct (has1 (Path spec) "/testify/require");
      [|destruct (has1 (Path spec) "/testify/assert")];
      try (apply IH; [lia|lia|exact Hrest]).
    apply IH; [rewrite length_insert; lia|lia|].
    now rewrite drop_insert_lt by lia.
Qed.

(** The second loop, on one import group. *)
Lemma specs_loop_spec : forall k i arr j store arr' j' store',
  (i + k)%nat = length arr -> (j <= i)%nat ->
  specs_loop k i arr j store = Ok (arr', j', store') ->
  length arr' = length arr
  /\ (j' <= length arr)%nat
  /\ take j' arr'
     = (take j arr ++ filter (survives_spec store) (drop i arr))%list
  /\ store'
     = rename_all (spec_locs (filter (survives_spec store) (drop i arr))) store.
Proof.
  induction k as [|k IH]; intros i arr j store arr' j' store' Hlen Hj Hrun;
    cbn [specs_loop] in Hrun.
  - inversion Hrun; subst arr' j' store'; clear Hrun.
    rewrite drop_ge by lia. rewrite filter_nil, app_nil_r.
    repeat split; lia.
  - destruct (arr !! i) as [x|] eqn:Hi; [|discriminate Hrun].
    destruct x as [l|]; [|discriminate Hrun].
    destruct (store !! l) as [imp|] eqn:Hs; [|discriminate Hrun].
    rewrite (drop_S arr (SImport l) i Hi).
    assert (Hsv : survives_spec store (SImport l)
                  = negb (has2 (Path imp) "/testify/require"
                          || has2 (Path imp) "/testify/assert")).
    { cbn [survives_spec]. unfold survives, is_testify.
      now rewrite Hs, !has2_Contains. }
    destruct (has2 (Path imp) "/testify/require") eqn:H1;
      [|destruct (has2 (Path imp) "/testify/assert") eqn:H2];
      cbn [negb orb] in Hsv.
    + apply IH in Hrun; [|lia|lia].
      rewrite filter_cons_False by (rewrite Hsv; auto). exact Hrun.
    + apply IH in Hrun; [|lia|lia].
      rewrite filter_cons_False by (rewrite Hsv; auto). exact Hrun.
    + apply IH in Hrun; [|rewrite length_insert; lia|lia].
      rewrite length_insert in Hrun.
      destruct Hrun as (Hl' & Hj' & Htake & Hst).
      rewrite drop_insert_lt in Htake, Hst by lia.
      rewrite rename_alter in Htake, Hst.
      change (alter renamed_spec l store) with (rename_all [l] store)
        in Htake, Hst.
      rewrite (list_filter_iff _ (survives_spec store)) in Htake, Hst
        by (intros y; now rewrite survives_spec_rename_all).
      repeat split; [exact Hl'|exact Hj'| |].
      * rewrite Htake.
        rewrite filter_cons_True by (rewrite Hsv; exact I).
        rewrite (take_S_r _ j (SImport l)) by (apply list_lookup_insert_eq; lia).
        rewrite take_insert_ge by lia.
        now rewrite <- app_assoc.
      * rewrite Hst.
        rewrite filter_cons_True by (rewrite Hsv; exact I).
        cbn [spec_locs flat_map]. symmetry.
        apply (rename_all_app [l]).
Qed.

Lemma specs_loop_total : forall k i arr j store,
  (i + k)%nat = length arr -> (j <= i)%nat ->
  Forall (fun x => match x with
                   | SImport l => is_Some (store !! l)
                   | SOther => False
                   end) (drop i arr) ->
  exists arr' j' store', specs_loop k i arr j store = Ok (arr', j', store').
Proof.
  induction k as [|k IH]; intros i arr j store Hlen Hj Hlive; cbn [specs_loop].
  - eauto.
  - destruct (lookup_lt_is_Some_2 arr i ltac:(lia)) as [x Hi].
    rewrite Hi. rewrite (drop_S arr x i Hi) in Hlive.
    apply Forall_cons in Hlive as [Hx Hrest].
    destruct x as [l|]; [|contradiction]. destruct Hx as [imp Hs]. rewrite Hs.
    destruct (has2 (Path imp) "/testify/require");
      [|destruct (has2 (Path imp) "/testify/assert")];
      try (apply IH; [lia|lia|exact Hrest]).
    apply IH; [rewrite length_insert; lia|lia|].
    rewrite drop_insert_lt by lia.
    eapply Forall_impl; [exact Hrest|].
    intros [l'|]; [|auto]. cbn. rewrite rename_alter.
    intros HS. now apply lookup_alter_is_Some.
Qed.

End InPlace.

Lemma spec_locs_app xs ys :
  spec_locs (xs ++ ys)%list = (spec_locs xs ++ spec_locs ys)%list.
Proof. unfold spec_locs. apply flat_map_app. Qed.

Lemma decl_import_specs_cons d ds :
  decl_import_specs (d :: ds)
  = (decl_import_specs [d] ++ decl_import_specs ds)%list.
Proof. unfold decl_import_specs. cbn [flat_map]. now rewrite app_nil_r. Qed.

Lemma filter_decl_rename_all ls store d :
  filter_decl (rename_all ls store) d = filter_decl store d.
Proof.
  destruct d as [[] specs| |]; try reflexivity. cbn [filter_decl]. f_equal.
  apply list_filter_iff. intros x. now rewrite survives_spec_rename_all.
Qed.

Lemma shrinks_rename_all ls store d :
  shrinks (rename_all ls store) d = shrinks store d.
Proof.
  destruct d as [[] specs| |]; try reflexivity. cbn [shrinks]. do 3 f_equal.
  apply list_filter_iff. intros x. now rewrite survives_spec_rename_all.
Qed.

Lemma live_rename_all ls store l :
  is_Some (rename_all ls store !! l) <-> is_Some (store !! l).
Proof.
  rewrite lookup_rename_all. destruct (bool_decide (l ∈ ls)); [|reflexivity].
  apply fmap_is_Some.
Qed.

Lemma decl_step_spec d store n d' store' n' :
  decl_step d (store, n) = Ok (d', (store', n')) ->
  d' = filter_decl store d
  /\ store' = rename_all (spec_locs (decl_import_specs [filter_decl store d])) store
  /\ n' = (if shrinks store d then int_incr n else n).
Proof.
  unfold decl_step.
  destruct d as [tok specs|src|];
    try (intros H; inversion H; subst; now repeat split).
  destruct tok; try (intros H; inversion H; subst; now repeat split).
  destruct (specs_loop (length specs) 0 specs 0 store)
    as [[[arr j] st]|c|z] eqn:Hloop; try discriminate.
  apply specs_loop_spec in Hloop; [|lia|lia].
  destruct Hloop as (Hlen & Hj & Htake & Hst).
  rewrite drop_0 in Htake, Hst. rewrite take_0, app_nil_l in Htake.
  assert (Hjlen : j = length (filter (survives_spec store) specs)).
  { rewrite <- Htake, length_take_le; lia. }
  cbn [decl_import_specs flat_map filter_decl shrinks]. rewrite app_nil_r.
  assert (Hb : (length (filter (survives_spec store) specs) =? length specs)%nat
               = bool_decide (j = length specs)).
  { rewrite <- Hjlen. destruct (Nat.eqb_spec j (length specs)) as [He|He].
    - now rewrite bool_decide_eq_true_2.
    - now rewrite bool_decide_eq_false_2. }
  rewrite Hb.
  destruct (decide (j ≠ length specs)) as [Hne|He];
    intros H; inversion H; subst d' store' n'; clear H.
  - rewrite Htake. rewrite bool_decide_eq_false_2 by exact Hne.
    repeat split. exact Hst.
  - assert (Hj' : j = length specs) by lia.
    rewrite bool_decide_eq_true_2 by exact Hj'.
    rewrite <- Htake, take_ge by lia. repeat split.
    rewrite Hst, <- Htake, take_ge by lia. reflexivity.
Qed.

Lemma decls_loop_spec : forall ds store n ds' store' n',
  decls_loop ds (store, n) = Ok (ds', (store', n')) ->
  ds' = map (filter_decl store) ds
  /\ store'
     = rename_all (spec_locs (decl_import_specs (map (filter_decl store) ds))) store
  /\ n' = Nat.iter (length (filter (shrinks store) ds)) int_incr n.
Proof.
  induction ds as [|d ds IH]; intros store n ds' store' n' Hrun;
    cbn [decls_loop] in Hrun.
  - inversion Hrun; subst. now repeat split.
  - destruct (decl_step d (store, n)) as [[d1 [store1 n1]]|c|z] eqn:Hstep;
      try discriminate.
    destruct (decls_loop ds (store1, n1)) as [[ds1 [store2 n2]]|c|z] eqn:Hrest;
      try discriminate.
    inversion Hrun; subst ds' store' n'; clear Hrun.
    apply decl_step_spec in Hstep as (Hd1 & Hs1 & Hn1).
    apply IH in Hrest as (Hds1 & Hs2 & Hn2).
    subst store1.
    rewrite (map_ext _ (filter_decl store)) in Hds1, Hs2
      by (intros; apply filter_decl_rename_all).
    rewrite (list_filter_iff _ (shrinks store)) in Hn2
      by (intros y; now rewrite shrinks_rename_all).
    cbn [map]. repeat split.
    + now subst.
    + rewrite (decl_import_specs_cons (filter_decl store d)
                 (map (filter_decl store) ds)).
      rewrite spec_locs_app, rename_all_app. exact Hs2.
    + rewrite Hn2, Hn1.
      destruct (shrinks store d) eqn:Hsh.
      * rewrite filter_cons_True by (rewrite Hsh; exact I).
        cbn [length]. now rewrite Nat.iter_succ_r.
      * rewrite filter_cons_False by (rewrite Hsh; auto). reflexivity.
Qed.

Lemma decls_loop_total : forall ds store n,
  Forall (fun x => match x with
                   | SImport l => is_Some (store !! l)
                   | SOther => False
                   end) (decl_import_specs ds) ->
  exists ds' store' n', decls_loop ds (store, n) = Ok (ds', (store', n')).
Proof.
  induction ds as [|d ds IH]; intros store n Hlive; cbn [decls_loop].
  - eauto.
  - rewrite decl_import_specs_cons in Hlive.
    apply Forall_app in Hlive as [Hd Hds].
    assert (Hstep : exists d1 store1 n1, decl_step d (store, n) = Ok (d1, (store1, n1))).
    { unfold decl_step. destruct d as [[] specs| |]; eauto.
      cbn [decl_import_specs flat_map] in Hd. rewrite app_nil_r in Hd.
      destruct (specs_loop_total (length specs) 0 specs 0 store)
        as (arr & j & st & Hloop); [lia|lia|now rewrite drop_0|].
      rewrite Hloop. case_decide; eauto. }
    destruct Hstep as (d1 & store1 & n1 & Hstep). rewrite Hstep.
    apply decl_step_spec in Hstep as (_ & Hs1 & _).
    destruct (IH store1 n1) as (ds' & store' & n' & Hrest).
    { eapply Forall_impl; [exact Hds|].
      intros [l|]; [|auto]. subst store1. now rewrite live_rename_all. }
    rewrite Hrest. eauto.
Qed.

Section PassIsFilter.

Variable has1 : string -> string -> bool.
Hypothesis Hhas1 : forall s sub, has1 s sub = Contains s sub.

(** The pass computes [reconciled] and counts the containers that shrank. *)
Lemma rewriteImportsFrom_spec n0 file file' n :
  rewriteImportsFrom has1 n0 file = Ok (file', n) ->
  file' = reconciled file
  /\ n = Nat.iter (shrunk_count file) int_incr n0.
Proof.
  unfold rewriteImportsFrom.
  destruct (imports_loop has1 (Store file) (length (Imports file)) 0
              (Imports file) 0) as [[arr j]|c|z] eqn:Hloop; try discriminate.
  apply (imports_loop_spec has1 Hhas1) in Hloop; [|lia|lia].
  destruct Hloop as (Hlen & Hj & Htake).
  rewrite drop_0 in Htake. rewrite take_0, app_nil_l in Htake.
  assert (Hjlen : j = length (filter (survives (Store file)) (Imports file))).
  { rewrite <- Htake, length_take_le; lia. }
  set (b := (if (length (filter (survives (Store file)) (Imports file))
                 =? length (Imports file))%nat then 0 else 1)%nat).
  assert (Hfirst :
    (if decide (j ≠ length (Imports file))
     then (take j arr, int_incr n0) else (arr, n0))
    = (filter (survives (Store file)) (Imports file), Nat.iter b int_incr n0)).
  { subst b. rewrite <- Hjlen.
    destruct (decide (j ≠ length (Imports file))) as [Hne|He].
    - now rewrite Htake, (proj2 (Nat.eqb_neq _ _) Hne).
    - assert (Hj' : j = length (Imports file)) by lia.
      rewrite <- Htake, take_ge by lia. now rewrite Hj', Nat.eqb_refl. }
  rewrite Hfirst.
  destruct (decls_loop (Decls file) (Store file, Nat.iter b int_incr n0))
    as [[ds' [store' n']]|c|z] eqn:Hdecls; try discriminate.
  apply decls_loop_spec in Hdecls as (Hds & Hst & Hn).
  intros H; inversion H; subst file' n; clear H.
  split.
  - unfold reconciled. now subst.
  - rewrite Hn. unfold shrunk_count. fold b. now rewrite Nat.iter_add.
Qed.

(** On a well-formed file the pass does not panic. *)
Lemma rewriteImportsFrom_total n0 file :
  well_formed file ->
  exists file' n, rewriteImportsFrom has1 n0 file = Ok (file', n).
Proof.
  intros [Himp Hdecl]. unfold rewriteImportsFrom.
  destruct (imports_loop_total has1 (Store file) (length (Imports file)) 0
              (Imports file) 0) as (arr & j & Hloop);
    [lia|lia|now rewrite drop_0|].
  rewrite Hloop.
  destruct (if decide (j ≠ length (Imports file))
            then (take j arr, int_incr n0) else (arr, n0)) as [imports' n1].
  destruct (decls_loop_total (Decls file) (Store file) n1 Hdecl)
    as (ds' & store' & n' & Hdecls).
  rewrite Hdecls. eauto.
Qed.

End PassIsFilter.

(** ** Facts about the filtered file *)

Lemma filter_idemp {A} (P : A -> bool) (l : list A) :
  filter P (filter P l) = filter P l.
Proof.
  induction l as [|x l IH]; [reflexivity|].
  destruct (P x) eqn:Hx.
  - rewrite (filter_cons_True P x l) by (rewrite Hx; exact I).
    rewrite filter_cons_True by (rewrite Hx; exact I). now rewrite IH.
  - rewrite (filter_cons_False P x l) by (rewrite Hx; auto). exact IH.
Qed.

Lemma filter_length_eq {A} (P : A -> bool) (l : list A) :
  length (filter P l) = length l -> filter P l = l.
Proof.
  induction l as [|x l IH]; [reflexivity|].
  destruct (P x) eqn:Hx.
  - rewrite filter_cons_True by (rewrite Hx; exact I).
    cbn [length]. intros H. f_equal. apply IH. lia.
  - rewrite filter_cons_False by (rewrite Hx; auto).
    pose proof (length_filter P l). cbn [length]. lia.
Qed.

Lemma spec_locs_filter store xs :
  spec_locs (filter (survives_spec store) xs)
  = filter (survives store) (spec_locs xs).
Proof.
  induction xs as [|x xs IH]; [reflexivity|].
  destruct x as [l|].
  - cbn [spec_locs flat_map app]. fold (spec_locs xs).
    destruct (survives store l) eqn:Hl.
    + rewrite filter_cons_True by (cbn; rewrite Hl; exact I).
      rewrite (filter_cons_True (survives store)) by (rewrite Hl; exact I).
      cbn [spec_locs flat_map app]. f_equal. exact IH.
    + rewrite filter_cons_False by (cbn; rewrite Hl; auto).
      rewrite (filter_cons_False (survives store)) by (rewrite Hl; auto).
      exact IH.
  - rewrite filter_cons_False by (cbn; auto). exact IH.
Qed.

Lemma decl_import_specs_filter store ds :
  decl_import_specs (map (filter_decl store) ds)
  = filter (survives_spec store) (decl_import_specs ds).
Proof.
  induction ds as [|d ds IH]; [reflexivity|].
  cbn [map]. rewrite decl_import_specs_cons, (decl_import_specs_cons d ds).
  rewrite filter_app, IH. f_equal.
  destruct d as [[] specs| |]; cbn; rewrite ?app_nil_r; reflexivity.
Qed.

Lemma decl_imports_reconciled file :
  decl_imports (reconciled file)
  = filter (survives (Store file)) (decl_imports file).
Proof.
  unfold decl_imports, reconciled. cbn [Decls].
  now rewrite decl_import_specs_filter, spec_locs_filter.
Qed.

Lemma Store_reconciled file :
  Store (reconciled file) = rename_all (decl_imports (reconciled file)) (Store file).
Proof. reflexivity. Qed.

Lemma survives_live store l : survives store l = true -> is_Some (store !! l).
Proof. unfold survives. destruct (store !! l); [eauto|discriminate]. Qed.

(** The filtered file is well formed, whatever the file was. *)
Lemma reconciled_well_formed file : well_formed (reconciled file).
Proof.
  split.
  - apply Forall_forall. intros l Hl. cbn [Imports reconciled] in Hl.
    apply list_elem_of_filter in Hl as [Hs _].
    unfold live. rewrite Store_reconciled. apply live_rename_all.
    apply survives_live. now destruct (survives (Store file) l).
  - cbn [Decls reconciled]. rewrite decl_import_specs_filter.
    apply Forall_forall. intros x Hx.
    apply list_elem_of_filter in Hx as [Hs _].
    destruct x as [l|]; [|exact Hs].
    unfold live. rewrite Store_reconciled. apply live_rename_all.
    apply survives_live. cbn in Hs. now destruct (survives (Store file) l).
Qed.

Lemma rename_all_idemp ls store : rename_all ls (rename_all ls store) = rename_all ls store.
Proof.
  apply map_eq. intros l. rewrite !lookup_rename_all.
  destruct (bool_decide (l ∈ ls)); [|reflexivity].
  rewrite <- option_fmap_compose.
  destruct (store !! l) as [imp|]; cbn; [|reflexivity].
  now rewrite renamed_spec_idemp.
Qed.

Lemma filter_decl_idemp store d :
  filter_decl store (filter_decl store d) = filter_decl store d.
Proof.
  destruct d as [[] specs| |]; try reflexivity.
  cbn [filter_decl]. now rewrite filter_idemp.
Qed.

Lemma shrinks_filter_decl store d : shrinks store (filter_decl store d) = false.
Proof.
  destruct d as [[] specs| |]; try reflexivity.
  cbn [filter_decl shrinks]. now rewrite filter_idemp, Nat.eqb_refl.
Qed.

Lemma reconciled_idemp file : reconciled (reconciled file) = reconciled file.
Proof.
  unfold reconciled at 1.
  assert (Hd : map (filter_decl (Store (reconciled file))) (Decls (reconciled file))
               = Decls (reconciled file)).
  { cbn [Decls reconciled]. rewrite Store_reconciled, map_map.
    apply map_ext. intros d.
    now rewrite filter_decl_rename_all, filter_decl_idemp. }
  rewrite Hd.
  assert (Hi : filter (survives (Store (reconciled file))) (Imports (reconciled file))
               = Imports (reconciled file)).
  { cbn [Imports reconciled]. rewrite Store_reconciled.
    rewrite (list_filter_iff _ (survives (Store file)))
      by (intros l; now rewrite survives_rename_all).
    apply filter_idemp. }
  rewrite Hi.
  transitivity {| FileName := FileName (reconciled file);
                  Store := Store (reconciled file);
                  Imports := Imports (reconciled file);
                  Decls := Decls (reconciled file) |};
    [|reflexivity].
  f_equal.
  change (spec_locs (decl_import_specs (Decls (reconciled file))))
    with (decl_imports (reconciled file)).
  rewrite Store_reconciled. apply rename_all_idemp.
Qed.

Lemma shrunk_count_reconciled file : shrunk_count (reconciled file) = 0%nat.
Proof.
  unfold shrunk_count.
  assert (Hd : filter (shrinks (Store (reconciled file))) (Decls (reconciled file)) = []).
  { cbn [Decls reconciled]. rewrite Store_reconciled.
    rewrite (list_filter_iff _ (shrinks (Store file)))
      by (intros d; now rewrite shrinks_rename_all).
    induction (Decls file) as [|d ds IH]; [reflexivity|].
    cbn [map]. rewrite filter_cons_False; [exact IH|].
    rewrite shrinks_filter_decl. auto. }
  rewrite Hd. cbn [length].
  cbn [Imports reconciled]. rewrite Store_reconciled.
  rewrite (list_filter_iff _ (survives (Store file)))
    by (intros l; now rewrite survives_rename_all).
  now rewrite filter_idemp, Nat.eqb_refl.
Qed.

(** The two spellings of the pass agree. *)
Lemma imports_loop_ext (h1 h2 : string -> string -> bool) store :
  (forall s sub, h1 s sub = h2 s sub) ->
  forall k i arr j,
    imports_loop h1 store k i arr j = imports_loop h2 store k i arr j.
Proof.
  intros Hh. induction k as [|k IH]; intros i arr j; cbn [imports_loop];
    [reflexivity|].
  destruct (arr !! i) as [imp|]; [|reflexivity].
  destruct (store !! imp) as [spec|]; [|reflexivity].
  now rewrite !Hh, !IH.
Qed.

Lemma inline_rewriteImports_same n file :
  Untestify.inline_rewriteImports n file = rewriteImportsFrom Contains n file.
Proof.
  unfold Untestify.inline_rewriteImports, rewriteImportsFrom.
  now rewrite (imports_loop_ext has2 Contains _ has2_Contains).
Qed.

(** ** The two import representations after the pass *)

Lemma rewriteImports_reconciled file file' n :
  Part000.rewriteImports file = Ok (file', n) ->
  file' = reconciled file /\ n = Nat.iter (shrunk_count file) int_incr 0.
Proof. apply rewriteImportsFrom_spec. reflexivity. Qed.

Lemma described_elem store ls x :
  x ∈ described store ls
  <-> exists l, l ∈ ls /\ x = (fun imp => (Path imp, Name imp)) <$> store !! l.
Proof.
  unfold described. rewrite list_elem_of_In, in_map_iff.
  split; intros (l & H1 & H2).
  - exists l. rewrite list_elem_of_In. auto.
  - exists l. rewrite <- list_elem_of_In. auto.
Qed.

(** C2. On a file whose import list holds the very import specs of its
    import declarations (as the parser leaves it), the pass completes, and
    afterwards the import list and the import declarations hold the same
    import specs, hence describe the same paths with the same aliases (in
    the same order when they started in the same order); no path in either
    contains [/testify/require] or [/testify/assert]. *)
Theorem imports_and_decls_agree (file : File) :
  shared_imports file ->
  exists file' n,
    Part000.rewriteImports file = Ok (file', n)
    /\ (forall l, l ∈ Imports file' <-> l ∈ decl_imports file')
    /\ (forall x, x ∈ described (Store file') (Imports file')
                  <-> x ∈ described (Store file') (decl_imports file'))
    /\ (forall l, l ∈ Imports file' \/ l ∈ decl_imports file' ->
          exists imp, Store file' !! l = Some imp /\ is_testify (Path imp) = false)
    /\ (Imports file = decl_imports file -> Imports file' = decl_imports file').
Proof.
  intros [Hwf Hsame].
  destruct (rewriteImportsFrom_total Contains 0 file Hwf) as (file' & n & Hrun).
  exists file', n. split; [exact Hrun|].
  apply rewriteImports_reconciled in Hrun as [-> _].
  assert (Hmem : forall l, l ∈ Imports (reconciled file)
                           <-> l ∈ decl_imports (reconciled file)).
  { intros l. rewrite decl_imports_reconciled. cbn [Imports reconciled].
    rewrite !list_elem_of_filter, Hsame. reflexivity. }
  split; [exact Hmem|]. split; [|split].
  - intros x. rewrite !described_elem.
    split; intros (l & Hl & Hx); exists l; split; auto; now apply Hmem.
  - intros l Hl.
    assert (Hin : l ∈ Imports (reconciled file)) by (destruct Hl; [|apply Hmem]; auto).
    cbn [Imports reconciled] in Hin.
    apply list_elem_of_filter in Hin as [Hs _].
    unfold survives in Hs. destruct (Store file !! l) as [imp|] eqn:Hl'; [|contradiction].
    rewrite Store_reconciled, lookup_rename_all, Hl'.
    destruct (is_testify (Path imp)) eqn:Ht; [contradiction|].
    destruct (bool_decide _); eexists; (split; [reflexivity|exact Ht]).
  - intros Heq. rewrite decl_imports_reconciled. cbn [Imports reconciled].
    now rewrite Heq.
Qed.

Lemma imports_and_decls_agree_witness :
  shared_imports (test_file "a_test.go" "TestA")
  /\ exists file' n,
       Part000.rewriteImports (test_file "a_test.go" "TestA") = Ok (file', n)
       /\ (forall l, l ∈ Imports file' <-> l ∈ decl_imports file')
       /\ (forall x, x ∈ described (Store file') (Imports file')
                     <-> x ∈ described (Store file') (decl_imports file'))
       /\ (forall l, l ∈ Imports file' \/ l ∈ decl_imports file' ->
             exists imp, Store file' !! l = Some imp /\ is_testify (Path imp) = false)
       /\ (Imports (test_file "a_test.go" "TestA")
           = decl_imports (test_file "a_test.go" "TestA")
           -> Imports file' = decl_imports file').
Proof.
  assert (H : shared_imports (test_file "a_test.go" "TestA")).
  { split; [split|].
    - repeat constructor; eexists; reflexivity.
    - repeat constructor; eexists; reflexivity.
    - intros l. reflexivity. }
  split; [exact H|].
  apply (imports_and_decls_agree (test_file "a_test.go" "TestA")). exact H.
Defined.

(** ** Idempotence and order *)

(** C4. When the pass has run on a file, running it again returns 0 and
    leaves the file, with both import representations, as it is; and one
    run keeps the surviving imports of the import list and of every import
    declaration in their relative order (each is a sublist of what it
    was, namely the entries whose path is not a removed one). *)
Theorem rewriteImports_idempotent_in_order (file file1 : File) (n1 : Z) :
  Part000.rewriteImports file = Ok (file1, n1) ->
  Part000.rewriteImports file1 = Ok (file1, 0)
  /\ Imports file1 = filter (survives (Store file)) (Imports file)
  /\ Imports file1 `sublist_of` Imports file
  /\ Forall2 (fun d1 d =>
                match d, d1 with
                | GenDecl IMPORT specs, GenDecl IMPORT specs1 =>
                    specs1 = filter (survives_spec (Store file)) specs
                    /\ specs1 `sublist_of` specs
                | _, _ => d1 = d
                end) (Decls file1) (Decls file).
Proof.
  intros Hrun. apply rewriteImports_reconciled in Hrun as [-> _].
  split; [|split; [reflexivity|split]].
  - destruct (rewriteImportsFrom_total Contains 0 (reconciled file)
                (reconciled_well_formed file)) as (file2 & n2 & Hrun2).
    unfold Part000.rewriteImports. rewrite Hrun2.
    apply rewriteImports_reconciled in Hrun2 as [-> ->].
    now rewrite reconciled_idemp, shrunk_count_reconciled.
  - cbn [Imports reconciled]. apply sublist_filter.
  - cbn [Decls reconciled].
    induction (Decls file) as [|d ds IH]; cbn [map]; constructor; [|exact IH].
    destruct d as [[] specs| |]; cbn [filter_decl]; try reflexivity.
    split; [reflexivity|apply sublist_filter].
Qed.

Lemma rewriteImports_idempotent_in_order_witness :
  exists file1 n1,
    Part000.rewriteImports (test_file "a_test.go" "TestA") = Ok (file1, n1)
    /\ Part000.rewriteImports file1 = Ok (file1, 0)
    /\ Imports file1 `sublist_of` Imports (test_file "a_test.go" "TestA").
Proof.
  eexists _, _.
  assert (H : Part000.rewriteImports (test_file "a_test.go" "TestA")
              = Ok (reconciled (test_file "a_test.go" "TestA"), 2))
    by (vm_compute; reflexivity).
  split; [exact H|].
  destruct (rewriteImports_idempotent_in_order _ _ _ H) as (H1 & _ & H2 & _).
  split; [exact H1|exact H2].
Defined.

(** ** The value returned *)

Lemma iter_int_incr k : (Z.of_nat k <= int_max) ->
  Nat.iter k int_incr 0 = Z.of_nat k.
Proof.
  induction k as [|k IH]; intros Hk; [reflexivity|].
  rewrite Nat.iter_succ, IH by lia.
  rewrite int_incr_small; lia.
Qed.

Lemma filter_decl_fixed store d : shrinks store d = false <-> filter_decl store d = d.
Proof.
  destruct d as [[] specs| |]; cbn [shrinks filter_decl]; try tauto.
  rewrite negb_false_iff, Nat.eqb_eq. split.
  - intros H. f_equal. now apply filter_length_eq.
  - intros H. inversion H as [H']. now rewrite !H'.
Qed.

Lemma no_decl_shrinks store ds :
  length (filter (shrinks store) ds) = 0%nat <-> map (filter_decl store) ds = ds.
Proof.
  induction ds as [|d ds IH]; [tauto|].
  cbn [map]. destruct (shrinks store d) eqn:Hd.
  - rewrite filter_cons_True by (rewrite Hd; exact I). cbn [length].
    split; [discriminate|]. intros H. inversion H as [[H1 H2]].
    apply filter_decl_fixed in H1. congruence.
  - rewrite filter_cons_False by (rewrite Hd; auto).
    apply filter_decl_fixed in Hd. rewrite Hd, IH.
    split; [congruence|]. intros H. injection H as H. exact H.
Qed.

(** C3 (amended). The pass returns the number of import containers it
    shortened: one for the import list if an entry was dropped from it, and
    one for each import declaration from which an entry was dropped. The
    result is 0 exactly when nothing was removed from either representation
    (a changed alias does not count), and it lies between 0 and the number
    of declarations plus one. *)
Theorem rewriteImports_counts_containers (file file' : File) (n : Z) :
  int_of_len (Decls file) < int_max ->
  Part000.rewriteImports file = Ok (file', n) ->
  n = Z.of_nat (shrunk_count file)
  /\ (n = 0 <-> Imports file' = Imports file /\ Decls file' = Decls file)
  /\ 0 <= n <= int_of_len (Decls file) + 1.
Proof.
  intros Hlen Hrun. apply rewriteImports_reconciled in Hrun as [-> ->].
  assert (Hbound : (shrunk_count file <= length (Decls file) + 1)%nat).
  { unfold shrunk_count.
    pose proof (length_filter (shrinks (Store file)) (Decls file)).
    destruct (_ =? _)%nat; lia. }
  unfold int_of_len in *.
  rewrite iter_int_incr by lia.
  split; [reflexivity|]. split; [|lia].
  cbn [Imports Decls reconciled]. rewrite <- no_decl_shrinks.
  unfold shrunk_count.
  destruct (Nat.eqb_spec (length (filter (survives (Store file)) (Imports file)))
              (length (Imports file))) as [He|Hne].
  - apply filter_length_eq in He. rewrite He. split.
    + intros H. split; [reflexivity|lia].
    + intros [_ H]. rewrite H. reflexivity.
  - split; [lia|]. intros [H _]. rewrite H in Hne. contradiction.
Qed.

Lemma rewriteImports_counts_containers_witness :
  int_of_len (Decls (test_file "a_test.go" "TestA")) < int_max
  /\ exists file',
       Part000.rewriteImports (test_file "a_test.go" "TestA") = Ok (file', 2)
       /\ 2 = Z.of_nat (shrunk_count (test_file "a_test.go" "TestA")).
Proof.
  assert (Hlen : int_of_len (Decls (test_file "a_test.go" "TestA")) < int_max)
    by (vm_compute; reflexivity).
  split; [exact Hlen|].
  exists (reconciled (test_file "a_test.go" "TestA")).
  assert (H : Part000.rewriteImports (test_file "a_test.go" "TestA")
              = Ok (reconciled (test_file "a_test.go" "TestA"), 2))
    by (vm_compute; reflexivity).
  split; [exact H|].
  exact (proj1 (rewriteImports_counts_containers
                  (test_file "a_test.go" "TestA")
                  (reconciled (test_file "a_test.go" "TestA")) 2 Hlen H)).
Defined.

(** C3 as stated fails: on a file with one testify import the pass
    returns 2, and on a file where it only changes an alias it returns 0. *)
Lemma rewriteImports_count_counterexample :
  (exists file', Part000.rewriteImports (test_file "a_test.go" "TestA") = Ok (file', 2))
  /\ (exists file',
        Part000.rewriteImports expect_file = Ok (file', 0)
        /\ Name <$> Store expect_file !! 1%positive = Some None
        /\ Name <$> Store file' !! 1%positive = Some (Some "gexpect")).
Proof.
  split.
  - eexists. vm_compute. reflexivity.
  - eexists. split; [vm_compute; reflexivity|]. split; vm_compute; reflexivity.
Qed.

(** ** Removal and renaming go by substring *)

(** C10 (amended). The pass decides by substring match on the quoted
    path alone. It removes from the import list and from every import
    declaration exactly the entries whose path contains
    [/testify/require] or [/testify/assert]. Every import that stays in an
    import declaration gets the alias [gassert] if its path contains
    [github.com/grailbio/testutil/assert], and the alias [gexpect] if its
    path contains [github.com/grailbio/testutil/expect] and not
    [github.com/grailbio/testutil/assert] (the pass assigns [gexpect]
    first and [gassert] second), whatever alias it had. Every other import
    spec keeps its alias, and no path changes. *)
Theorem rewriteImports_by_substring (file file' : File) (n : Z) :
  Part000.rewriteImports file = Ok (file', n) ->
  Imports file' = filter (fun l => survives (Store file) l) (Imports file)
  /\ Decls file' = map (filter_decl (Store file)) (Decls file)
  /\ (forall l imp, Store file !! l = Some imp ->
        is_testify (Path imp) = (negb (survives (Store file) l))
        /\ Store file' !! l
           = Some {| Name := if bool_decide (l ∈ decl_imports file')
                             then renamed_alias (Path imp) (Name imp)
                             else Name imp;
                     Path := Path imp |})
  /\ (forall l, Store file !! l = None -> Store file' !! l = None).
Proof.
  intros Hrun. apply rewriteImports_reconciled in Hrun as [-> _].
  split; [reflexivity|]. split; [reflexivity|]. split.
  - intros l imp Hl. split.
    + unfold survives. rewrite Hl. now rewrite negb_involutive.
    + rewrite Store_reconciled, lookup_rename_all, Hl.
      destruct (bool_decide _); [reflexivity|now destruct imp].
  - intros l Hl. rewrite Store_reconciled, lookup_rename_all, Hl.
    now destruct (bool_decide _).
Qed.

Lemma rewriteImports_by_substring_witness :
  exists file',
    Part000.rewriteImports vendored_file = Ok (file', 0)
    /\ Imports file'
       = filter (fun l => survives (Store vendored_file) l) (Imports vendored_file).
Proof.
  eexists.
  assert (H : Part000.rewriteImports vendored_file = Ok (reconciled vendored_file, 0))
    by (vm_compute; reflexivity).
  split; [exact H|].
  apply (rewriteImports_by_substring _ _ _ H).
Defined.

(** C10 as stated fails: the path of the import of [vendored_file]
    contains [github.com/grailbio/testutil/expect], the import stays, and
    its alias ends as [gassert], not [gexpect]. *)
Lemma rewriteImports_alias_counterexample :
  exists file' imp,
    Part000.rewriteImports vendored_file = Ok (file', 0)
    /\ Imports file' = [1%positive]
    /\ Store file' !! 1%positive = Some imp
    /\ Contains (Path imp) "github.com/grailbio/testutil/expect" = true
    /\ Name imp = Some "gassert"
    /\ Name imp <> Some "gexpect".
Proof.
  eexists _, _. split; [vm_compute; reflexivity|].
  split; [reflexivity|]. split; [vm_compute; reflexivity|].
  split; [vm_compute; reflexivity|]. split; [reflexivity|discriminate].
Qed.

(** ** The help flag *)



(** ** Files are written back only when something changed *)

Lemma persist_persisted E file2 n w : persist E file2 n w = persisted E file2 n w.
Proof.
  unfold persist, persisted, bind, emit, WriteAST, ret, panic.
  cbn [templateSeq disk trace fst snd].
  rewrite <- app_assoc. cbn [app].
  destruct (snd (eg_WriteAST E (FileName file2) file2 (disk w))); reflexivity.
Qed.

Lemma process_file_part000 E xforms pkg file w :
  Part000.process_file E xforms pkg file w
  = file_step E (rewrite_file_part000 E xforms pkg file) w.
Proof.
  unfold Part000.process_file, rewrite_file_part000, file_step.
  destruct (apply_xforms E xforms pkg file 0) as [file1 n]. cbn [fst snd].
  unfold bind, lift.
  destruct (Part000.rewriteImports file1) as [[file2 k]|c|z]; try reflexivity.
  destruct (int_add n k =? 0); [reflexivity|apply persist_persisted].
Qed.

Lemma process_file_untestify E xforms pkg file w :
  Untestify.process_file E xforms pkg file w
  = file_step E (rewrite_file_untestify E xforms pkg file) w.
Proof.
  unfold Untestify.process_file, rewrite_file_untestify, file_step.
  destruct (apply_xforms E xforms pkg file 0) as [file1 n]. cbn [fst snd].
  unfold bind, lift.
  destruct (Untestify.inline_rewriteImports n file1) as [[file2 k]|c|z];
    try reflexivity.
  destruct (k =? 0); [reflexivity|apply persist_persisted].
Qed.

Lemma apply_xforms_counts E xforms pkg : forall file n0,
  snd (apply_xforms E xforms pkg file n0)
  = fold_left int_add (transform_counts E xforms pkg file) n0.
Proof.
  unfold apply_xforms, for_pure.
  induction xforms as [|x xforms IH]; intros file n0; [reflexivity|].
  cbn [fold_left transform_counts fst snd]. apply IH.
Qed.

Lemma int_wrap_in_int z : in_int (int_wrap z).
Proof.
  unfold in_int, int_wrap, int_min, int_max.
  pose proof (Z.mod_pos_bound (z + 2 ^ 63) (2 ^ 64) ltac:(lia)). lia.
Qed.

Lemma int_wrap_add_l a b : int_wrap (int_wrap a + b) = int_wrap (a + b).
Proof.
  unfold int_wrap. f_equal.
  replace ((a + 2 ^ 63) mod 2 ^ 64 - 2 ^ 63 + b + 2 ^ 63)
    with ((a + 2 ^ 63) mod 2 ^ 64 + b) by lia.
  rewrite Zplus_mod_idemp_l. f_equal. lia.
Qed.

Lemma int_wrap_add_r a b : int_wrap (a + int_wrap b) = int_wrap (a + b).
Proof. rewrite Z.add_comm, int_wrap_add_l. f_equal. lia. Qed.

Lemma int_add_assoc a b c : int_add (int_add a b) c = int_add a (int_add b c).
Proof.
  unfold int_add. rewrite int_wrap_add_l, int_wrap_add_r. f_equal. lia.
Qed.

Lemma int_add_0_r z : in_int z -> int_add z 0 = z.
Proof. intros Hz. unfold int_add. rewrite Z.add_0_r. now apply int_wrap_id. Qed.

Lemma iter_int_incr_from k n :
  in_int n -> Nat.iter k int_incr n = int_add n (Nat.iter k int_incr 0).
Proof.
  intros Hn. induction k as [|k IH].
  - cbn. now rewrite int_add_0_r.
  - rewrite !Nat.iter_succ, IH. unfold int_incr. apply int_add_assoc.
Qed.

Lemma apply_xforms_in_int E xforms pkg file n :
  in_int n -> in_int (snd (apply_xforms E xforms pkg file n)).
Proof.
  unfold apply_xforms, for_pure. revert file n.
  induction xforms as [|x xforms IH]; intros file n Hn; cbn [fold_left];
    [exact Hn|].
  apply IH. apply int_wrap_in_int.
Qed.

Lemma int_incr_as_add n : int_incr n = int_add n (int_incr 0).
Proof. reflexivity. Qed.

Lemma decl_step_shift d store n :
  in_int n ->
  decl_step d (store, n)
  = match decl_step d (store, 0) with
    | Ok (d', (s', k)) => Ok (d', (s', int_add n k))
    | Panic c => Panic c
    | Exit z => Exit z
    end.
Proof.
  intros Hn. unfold decl_step.
  destruct d as [[] specs| |]; try (now rewrite int_add_0_r).
  destruct (specs_loop (length specs) 0 specs 0 store) as [[[arr j] st]|c|z];
    try reflexivity.
  destruct (decide (j ≠ length specs)).
  - now rewrite (int_incr_as_add n).
  - now rewrite int_add_0_r.
Qed.

Lemma decls_loop_shift : forall ds store n,
  in_int n ->
  decls_loop ds (store, n)
  = match decls_loop ds (store, 0) with
    | Ok (ds', (s', k)) => Ok (ds', (s', int_add n k))
    | Panic c => Panic c
    | Exit z => Exit z
    end.
Proof.
  induction ds as [|d ds IH]; intros store n Hn; cbn [decls_loop].
  - now rewrite int_add_0_r.
  - rewrite (decl_step_shift d store n Hn).
    destruct (decl_step d (store, 0)) as [[d1 [s1 k1]]|c|z] eqn:Hstep;
      try reflexivity.
    assert (Hk1 : in_int k1).
    { apply decl_step_spec in Hstep as (_ & _ & ->).
      destruct (shrinks store d); [apply int_wrap_in_int|].
      unfold in_int, int_min, int_max. lia. }
    rewrite (IH s1 (int_add n k1)) by apply int_wrap_in_int.
    rewrite (IH s1 k1 Hk1).
    destruct (decls_loop ds (s1, 0)) as [[ds' [s' k]]|c|z]; try reflexivity.
    now rewrite int_add_assoc.
Qed.

(** Starting the count from [n] adds [n] to the result and changes
    nothing else. *)
Lemma rewriteImportsFrom_shift h n file :
  in_int n ->
  rewriteImportsFrom h n file
  = match rewriteImportsFrom h 0 file with
    | Ok (f, k) => Ok (f, int_add n k)
    | Panic c => Panic c
    | Exit z => Exit z
    end.
Proof.
  intros Hn. unfold rewriteImportsFrom.
  destruct (imports_loop h (Store file) (length (Imports file)) 0 (Imports file) 0)
    as [[arr j]|c|z]; try reflexivity.
  destruct (decide (j ≠ length (Imports file))).
  - rewrite (decls_loop_shift (Decls file) (Store file) (int_incr n))
      by apply int_wrap_in_int.
    rewrite (decls_loop_shift (Decls file) (Store file) (int_incr 0))
      by apply int_wrap_in_int.
    destruct (decls_loop (Decls file) (Store file, 0)) as [[ds' [s' k]]|c|z];
      try reflexivity.
    now rewrite (int_incr_as_add n), int_add_assoc.
  - rewrite (decls_loop_shift (Decls file) (Store file) n Hn).
    destruct (decls_loop (Decls file) (Store file, 0)) as [[ds' [s' k]]|c|z];
      reflexivity.
Qed.

(** The count of the import block of [src/untestify.go], started at [n],
    is [n] plus what [rewriteImports] returns. *)
Lemma inline_count_split n file1 file2 m :
  in_int n ->
  Untestify.inline_rewriteImports n file1 = Ok (file2, m) ->
  exists k, Part000.rewriteImports file1 = Ok (file2, k) /\ m = int_add n k.
Proof.
  intros Hn Hrun.
  rewrite inline_rewriteImports_same in Hrun.
  rewrite (rewriteImportsFrom_shift Contains n file1 Hn) in Hrun.
  unfold Part000.rewriteImports.
  destruct (rewriteImportsFrom Contains 0 file1) as [[f k]|c|z]; try discriminate.
  inversion Hrun; subst. eauto.
Qed.

(** C7 (amended). In the file loop of either program, let [n] be the
    count the loop body ends with: the Go [int] sum of the counts the
    matchers return and of the value [rewriteImports] returns, which
    counts removals only. If [n] is zero the body leaves the world as it
    is: no event, no call of [WriteAST], the disk untouched, even when the
    import pass changed an alias in memory. If [n] is not zero the body
    reports the file and calls [WriteAST] on it exactly once. So
    [WriteAST] is called on the file if and only if [n] is not zero. *)
Theorem file_written_iff_count_nonzero (E : Env) (xforms : list Transformer)
    (pkg : PackageInfo) (file file2 : File) (n : Z) (w : World) :
  (rewrite_file_part000 E xforms pkg file = Ok (file2, n) ->
   let w' := snd (Part000.process_file E xforms pkg file w) in
   ((exists ok, In (EvWriteAST (FileName file2) ok) (new_events w w')) <-> n <> 0)
   /\ (n = 0 -> Part000.process_file E xforms pkg file w = (Ok tt, w))
   /\ (n <> 0 -> Part000.process_file E xforms pkg file w = persisted E file2 n w)
   /\ exists k,
        Part000.rewriteImports (fst (apply_xforms E xforms pkg file 0))
        = Ok (file2, k)
        /\ n = int_add
                 (fold_left int_add (transform_counts E xforms pkg file) 0) k)
  /\ (rewrite_file_untestify E xforms pkg file = Ok (file2, n) ->
      let w' := snd (Untestify.process_file E xforms pkg file w) in
      ((exists ok, In (EvWriteAST (FileName file2) ok) (new_events w w')) <-> n <> 0)
      /\ (n = 0 -> Untestify.process_file E xforms pkg file w = (Ok tt, w))
      /\ (n <> 0 -> Untestify.process_file E xforms pkg file w = persisted E file2 n w)
      /\ exists k,
           Part000.rewriteImports (fst (apply_xforms E xforms pkg file 0))
           = Ok (file2, k)
           /\ n = int_add
                    (fold_left int_add (transform_counts E xforms pkg file) 0) k).
Proof.
  assert (Hstep : forall r,
    r = Ok (file2, n) ->
    let w' := snd (file_step E r w) in
    ((exists ok, In (EvWriteAST (FileName file2) ok) (new_events w w')) <-> n <> 0)
    /\ (n = 0 -> file_step E r w = (Ok tt, w))
    /\ (n <> 0 -> file_step E r w = persisted E file2 n w)).
  { intros r ->. cbn [file_step].
    destruct (Z.eqb_spec n 0) as [Hz|Hnz].
    - cbn [snd]. unfold new_events. rewrite drop_all.
      split; [|split]; [|reflexivity|contradiction].
      split; [intros [ok []]|contradiction].
    - split; [|split]; [|contradiction|reflexivity].
      split; [intros _; exact Hnz|intros _].
      unfold persisted, new_events. cbn [snd trace].
      rewrite drop_app_length. eexists. right. left. reflexivity. }
  assert (Hrange : in_int (snd (apply_xforms E xforms pkg file 0))).
  { apply apply_xforms_in_int. unfold in_int, int_min, int_max. lia. }
  split; intros Hr.
  - rewrite process_file_part000.
    destruct (Hstep _ Hr) as (H1 & H2 & H3).
    split; [exact H1|]. split; [exact H2|]. split; [exact H3|].
    unfold rewrite_file_part000 in Hr. rewrite <- apply_xforms_counts.
    destruct (Part000.rewriteImports (fst (apply_xforms E xforms pkg file 0)))
      as [[f2 k]|c|z]; try discriminate.
    inversion Hr; subst. eauto.
  - rewrite process_file_untestify.
    destruct (Hstep _ Hr) as (H1 & H2 & H3).
    split; [exact H1|]. split; [exact H2|]. split; [exact H3|].
    unfold rewrite_file_untestify in Hr. rewrite <- apply_xforms_counts.
    exact (inline_count_split _ _ _ _ Hrange Hr).
Qed.

Lemma file_written_iff_count_nonzero_witness :
  exists file2,
    rewrite_file_part000 env0 [xform0] pkg_p (test_file "a_test.go" "TestA")
    = Ok (file2, 3)
    /\ Part000.process_file env0 [xform0] pkg_p (test_file "a_test.go" "TestA")
         (init_world ∅)
       = persisted env0 file2 3 (init_world ∅)
    /\ exists k,
         Part000.rewriteImports
           (fst (apply_xforms env0 [xform0] pkg_p (test_file "a_test.go" "TestA") 0))
         = Ok (file2, k)
         /\ 3 = int_add
                  (fold_left int_add
                     (transform_counts env0 [xform0] pkg_p
                        (test_file "a_test.go" "TestA")) 0) k.
Proof.
  destruct (rewrite_file_part000 env0 [xform0] pkg_p (test_file "a_test.go" "TestA"))
    as [[file2 n]|c|z] eqn:Heq;
    [|exfalso; revert Heq; vm_compute; discriminate
     |exfalso; revert Heq; vm_compute; discriminate].
  assert (Hn : n = 3).
  { change n with (snd (file2, n)).
    change (file2, n) with
      (match Ok (file2, n) with Ok r => r | _ => (file2, 0) end).
    rewrite <- Heq. vm_compute. reflexivity. }
  subst n. exists file2. split; [reflexivity|].
  destruct (proj1 (file_written_iff_count_nonzero env0 [xform0] pkg_p
                     (test_file "a_test.go" "TestA") file2 3 (init_world ∅)) Heq)
    as (_ & _ & H3 & H4).
  split; [apply H3; discriminate|exact H4].
Defined.

(** C7 as stated fails: on [expect_file] the import pass changes
    something, the alias of the one import, yet the count is 0 and the
    file is not handed to [WriteAST]: the run of the loop body leaves the
    world as it was. *)
Lemma file_written_counterexample :
  (exists file2,
     rewrite_file_part000 env0 [xform0] pkg_p expect_file = Ok (file2, 0)
     /\ Name <$> Store expect_file !! 1%positive = Some None
     /\ Name <$> Store file2 !! 1%positive = Some (Some "gexpect"))
  /\ Part000.process_file env0 [xform0] pkg_p expect_file (init_world ∅)
     = (Ok tt, init_world ∅).
Proof.
  split.
  - eexists. split; [vm_compute; reflexivity|].
    split; vm_compute; reflexivity.
  - vm_compute. reflexivity.
Qed.

(** ** Which packages the loop skips *)

Lemma part000_loop_filter E xforms pkgs w :
  Part000.package_loop E xforms pkgs w
  = for_range
      (filter (fun p => negb (Contains (PkgPath p) "template000")) pkgs)
      (fun pkg _ => Part000.process_package E xforms pkg) tt w.
Proof.
  unfold Part000.package_loop. revert w.
  induction pkgs as [|pkg pkgs IH]; intros w; [reflexivity|].
  cbn [for_range]. unfold Part000.skip_package at 1.
  destruct (Contains (PkgPath pkg) "template000") eqn:Hc.
  - rewrite filter_cons_False by (rewrite Hc; auto).
    unfold bind at 1, ret at 1. apply IH.
  - rewrite filter_cons_True by (rewrite Hc; exact I).
    cbn [for_range]. unfold bind.
    destruct (Part000.process_package E xforms pkg w) as [[[]|c|z] w1];
      [apply IH|reflexivity|reflexivity].
Qed.

Lemma untestify_loop_filter E xforms templates pkgs w :
  Untestify.package_loop E xforms templates pkgs w
  = for_range
      (filter (fun p => negb (Contains (PkgPath p) "template0")
                        && negb (Untestify.isTemplate templates p)) pkgs)
      (fun pkg _ => Untestify.process_package E xforms pkg) tt w.
Proof.
  unfold Untestify.package_loop. revert w.
  induction pkgs as [|pkg pkgs IH]; intros w; [reflexivity|].
  cbn [for_range]. unfold Untestify.skip_package at 1.
  fold (has2 (PkgPath pkg) "template0"). rewrite has2_Contains.
  destruct (Contains (PkgPath pkg) "template0") eqn:Hc;
    [|destruct (Untestify.isTemplate templates pkg) eqn:Ht].
  - rewrite filter_cons_False by (rewrite Hc; auto).
    unfold bind at 1, ret at 1. apply IH.
  - rewrite filter_cons_False by (rewrite Hc, Ht; auto).
    unfold bind at 1, ret at 1. apply IH.
  - rewrite filter_cons_True by (rewrite Hc, Ht; exact I).
    cbn [for_range]. unfold bind.
    destruct (Untestify.process_package E xforms pkg w) as [[[]|c|z] w1];
      [apply IH|reflexivity|reflexivity].
Qed.

(** C6 (amended). The package loop of [src/unnamed/part_000] runs its
    body on exactly the packages whose path does not contain [template000];
    the loop of [src/untestify.go] on exactly those whose path does not
    contain [template0] and that are not one of the template packages
    (compared by pointer). Every template unit generated from the catalog
    has such a path, so every generated unit is skipped; a package that is
    no template unit is processed only if its path does not contain the
    substring. *)
Theorem package_skipped_by_path_substring :
  (forall E xforms pkgs w,
     Part000.package_loop E xforms pkgs w
     = for_range
         (filter (fun p => negb (Contains (PkgPath p) "template000")) pkgs)
         (fun pkg _ => Part000.process_package E xforms pkg) tt w)
  /\ (forall E xforms templates pkgs w,
        Untestify.package_loop E xforms templates pkgs w
        = for_range
            (filter (fun p => negb (Contains (PkgPath p) "template0")
                              && negb (Untestify.isTemplate templates p)) pkgs)
            (fun pkg _ => Untestify.process_package E xforms pkg) tt w)
  /\ Forall (fun u => Contains (SpecPath u) "template000" = true)
       (map (unit_spec Part000.dialect)
          (enumerate_from 0 (triples Part000.substitutions)))
  /\ Forall (fun u => Contains (SpecPath u) "template0" = true)
       (map (unit_spec Untestify.dialect)
          (enumerate_from 0 (triples Untestify.substitutions))).
Proof.
  split; [exact part000_loop_filter|].
  split; [exact untestify_loop_filter|].
  split; apply Forall_forall; intros u Hu; apply list_elem_of_In in Hu;
    revert u Hu; apply forallb_forall; vm_compute; reflexivity.
Qed.

(** C6 as stated fails: [pkg_t] is a requested package and no generated
    template unit, its path contains [template000], and the run skips it:
    only package [p] is reported and written back. *)
Lemma package_skip_counterexample :
  Part000.skip_package pkg_t = true
  /\ ~ In (PkgPath pkg_t)
        (map SpecPath
           (map (unit_spec Part000.dialect)
              (enumerate_from 0 (triples Part000.substitutions))))
  /\ fst (Part000.main env0 false false
            ["example.com/p"; "example.com/template000"] (init_world ∅))
     = Ok tt
  /\ report_events
       (trace (snd (Part000.main env0 false false
                      ["example.com/p"; "example.com/template000"]
                      (init_world ∅))))
     = [ EvStderr ("=== Package example.com/p (1 files)" ++ nl);
         EvStderr ("=== /go/src/example.com/p/p_test.go (3 matches)" ++ nl);
         EvWriteAST "/go/src/example.com/p/p_test.go" true ].
Proof.
  split; [vm_compute; reflexivity|].
  split.
  - rewrite <- list_elem_of_In.
    apply (bool_decide_eq_false_1 _). vm_compute. reflexivity.
  - split; vm_compute; reflexivity.
Qed.

(** ** Standard output carries only the package lines *)

Lemma stdout_lines_app tr1 tr2 :
  stdout_lines (tr1 ++ tr2)%list = (stdout_lines tr1 ++ stdout_lines tr2)%list.
Proof. unfold stdout_lines. apply flat_map_app. Qed.

Lemma bind_Ok_inv {A B} (m : M A) (k : A -> M B) w b w' :
  bind m k w = (Ok b, w') ->
  exists a w1, m w = (Ok a, w1) /\ k a w1 = (Ok b, w').
Proof.
  unfold bind. destruct (m w) as [[a|c|z] w1]; try discriminate. eauto.
Qed.

Lemma silent_ret {A} (a : A) : silent (ret a).
Proof. intros w. reflexivity. Qed.

Lemma silent_lift {A} (r : Outcome A) : silent (lift r).
Proof. intros w. reflexivity. Qed.

Lemma silent_must {A} c (r : option A) : silent (must c r).
Proof. intros w. destruct r; reflexivity. Qed.

Lemma silent_bind {A B} (m : M A) (k : A -> M B) :
  silent m -> (forall a, silent (k a)) -> silent (bind m k).
Proof.
  intros Hm Hk w. unfold bind. specialize (Hm w).
  destruct (m w) as [[a|c|z] w1]; cbn [snd] in *; [|exact Hm|exact Hm].
  now rewrite Hk.
Qed.

Lemma silent_for_range {A S} (xs : list A) (body : A -> S -> M S) :
  (forall x acc, silent (body x acc)) -> forall acc, silent (for_range xs body acc).
Proof.
  intros Hb. induction xs as [|x xs IH]; intros acc; cbn [for_range].
  - apply silent_ret.
  - apply silent_bind; [apply Hb|exact IH].
Qed.

Lemma silent_emit e :
  match e with EvStdout _ => False | _ => True end -> silent (emit e).
Proof.
  intros He w. unfold emit. cbn [snd trace]. rewrite stdout_lines_app.
  destruct e; try contradiction; cbn; now rewrite app_nil_r.
Qed.

Lemma silent_WriteFile E path data : silent (WriteFile E path data).
Proof.
  intros w. unfold WriteFile. cbn [snd trace]. rewrite stdout_lines_app.
  cbn. now rewrite app_nil_r.
Qed.

Lemma silent_WriteAST E filename file : silent (WriteAST E filename file).
Proof.
  intros w. unfold WriteAST. cbn [snd trace]. rewrite stdout_lines_app.
  cbn. now rewrite app_nil_r.
Qed.

Lemma silent_emit_unit E D fam sub a st : silent (emit_unit E D fam sub a st).
Proof.
  destruct st as [conf n]. unfold emit_unit.
  apply silent_bind; [intros w; reflexivity|intros seq].
  apply silent_bind; [intros w; reflexivity|intros _].
  apply silent_bind; [apply silent_WriteFile|intros [|]];
    [apply silent_ret|intros w; reflexivity].
Qed.

Lemma silent_addTemplates E D conf r subs : silent (addTemplates E D conf r subs).
Proof.
  unfold addTemplates. apply silent_bind.
  - intros w. unfold Mkdir. cbn [snd trace]. rewrite stdout_lines_app.
    cbn. now rewrite app_nil_r.
  - intros _. apply silent_for_range. intros sub st.
    apply silent_for_range. intros a st'. apply silent_emit_unit.
Qed.

Lemma silent_expand E D conf subs : silent (expand E D conf subs).
Proof.
  unfold expand. apply silent_bind; [apply silent_addTemplates|intros r1].
  apply silent_bind; [apply silent_addTemplates|intros r2]. apply silent_ret.
Qed.

Lemma silent_FromArgs E conf args : silent (FromArgs E conf args).
Proof.
  unfold FromArgs. apply silent_bind; [now apply silent_emit|intros _].
  apply silent_ret.
Qed.

Lemma silent_Load E conf : silent (Load E conf).
Proof.
  intros w. unfold Load.
  apply (silent_bind (emit (EvLoad (is_some (loader_Load E conf (disk w)))))
           (fun _ => ret (loader_Load E conf (disk w))));
    [now apply silent_emit|intros _; apply silent_ret].
Qed.

Lemma silent_NewTransformer E i t f v : silent (NewTransformer E i t f v).
Proof.
  unfold NewTransformer. apply silent_bind; [now apply silent_emit|intros _].
  apply silent_ret.
Qed.

Lemma silent_persist E file n : silent (persist E file n).
Proof.
  unfold persist. apply silent_bind; [now apply silent_emit|intros _].
  apply silent_bind; [apply silent_WriteAST|intros [|]];
    [apply silent_ret|intros w; reflexivity].
Qed.

Lemma silent_untestify_make_xforms E v iprog n :
  silent (Untestify.make_xforms E v iprog n).
Proof.
  unfold Untestify.make_xforms. apply silent_for_range. intros i st.
  apply silent_bind; [apply silent_must|intros template].
  apply silent_bind; [apply silent_must|intros file0].
  apply silent_bind; [apply silent_NewTransformer|intros r].
  apply silent_bind; [apply silent_must|intros xform]. apply silent_ret.
Qed.

Lemma silent_untestify_process_file E xforms pkg file :
  silent (Untestify.process_file E xforms pkg file).
Proof.
  unfold Untestify.process_file.
  destruct (apply_xforms E xforms pkg file 0) as [file1 n].
  apply silent_bind; [apply silent_lift|intros [file2 k]].
  destruct (k =? 0); [apply silent_ret|apply silent_persist].
Qed.

(** A package loop that completes prints one line per package it does not
    skip, in order. *)
Lemma untestify_loop_stdout E xforms templates : forall pkgs w w',
  Untestify.package_loop E xforms templates pkgs w = (Ok tt, w') ->
  stdout_lines (trace w')
  = (stdout_lines (trace w)
       ++ map (fun p => ("Handel package " ++ PkgPath p ++ nl)%string)
            (filter (fun p => negb (Untestify.skip_package templates p)) pkgs))%list.
Proof.
  unfold Untestify.package_loop.
  induction pkgs as [|pkg pkgs IH]; intros w w' Hrun; cbn [for_range] in Hrun.
  - inversion Hrun; subst. cbn. now rewrite app_nil_r.
  - apply bind_Ok_inv in Hrun as ([] & w1 & Hstep & Hrest).
    apply IH in Hrest. rewrite Hrest. clear Hrest IH.
    destruct (Untestify.skip_package templates pkg) eqn:Hs.
    + rewrite filter_cons_False by (rewrite Hs; auto).
      inversion Hstep; subst. reflexivity.
    + rewrite filter_cons_True by (rewrite Hs; exact I).
      unfold Untestify.process_package in Hstep.
      apply bind_Ok_inv in Hstep as ([] & w0 & Hemit & Hfiles).
      pose proof (silent_for_range (Files pkg)
                    (fun file _ => Untestify.process_file E xforms pkg file)
                    (fun file _ => silent_untestify_process_file E xforms pkg file)
                    tt w0) as Hsil.
      rewrite Hfiles in Hsil. cbn [snd] in Hsil. rewrite Hsil.
      inversion Hemit; subst w0. cbn [trace].
      rewrite stdout_lines_app. cbn [map stdout_lines flat_map app].
      now rewrite <- app_assoc.
Qed.

Lemma must_Ok_inv {A} c (r : option A) w a w' :
  must c r w = (Ok a, w') -> r = Some a /\ w' = w.
Proof. destruct r; cbn; intros H; inversion H; auto. Qed.

Lemma untestify_make_xforms_from E v iprog : forall k s st w r w',
  for_range (seq s k)
    (fun i st =>
       template <- index (Created iprog) i ;;
       let templates := (snd st ++ [template])%list in
       file0 <- index (Files template) 0 ;;
       r <- NewTransformer E i template file0 v ;;
       xform <- must NewTransformerFailed r ;;
       ret ((fst st ++ [xform])%list, templates))
    st w = (Ok r, w') ->
  snd r = (snd st ++ take k (drop s (Created iprog)))%list
  /\ length (fst r) = (length (fst st) + k)%nat.
Proof.
  induction k as [|k IH]; intros s st w r w' Hrun; cbn [seq for_range] in Hrun.
  - inversion Hrun; subst. rewrite take_0, app_nil_r. split; [reflexivity|lia].
  - apply bind_Ok_inv in Hrun as (st1 & w1 & Hbody & Hrest).
    apply bind_Ok_inv in Hbody as (t & w2 & Ht & Hbody).
    apply bind_Ok_inv in Hbody as (f & w3 & Hf & Hbody).
    apply bind_Ok_inv in Hbody as (r0 & w4 & Hr & Hbody).
    apply bind_Ok_inv in Hbody as (x & w5 & Hx & Hret).
    apply must_Ok_inv in Ht as [Ht _].
    inversion Hret; subst st1; clear Hret.
    apply IH in Hrest as [Hs Hl]. cbn [fst snd] in Hs, Hl.
    rewrite (drop_S _ _ _ Ht). cbn [take].
    split; [rewrite Hs, <- app_assoc; reflexivity|].
    rewrite Hl, length_app. cbn [length]. lia.
Qed.

Lemma file_step_effect E r w w' :
  file_step E r w = (Ok tt, w') ->
  exists fr,
    r = Ok fr
    /\ trace w' = (trace w ++ file_events fr)%list
    /\ disk w' = file_disk E (disk w) fr.
Proof.
  unfold file_step. destruct r as [[file2 n]|c|z]; try discriminate.
  intros H. exists (file2, n). split; [reflexivity|].
  unfold file_events, file_disk. cbn [fst snd].
  destruct (n =? 0).
  - inversion H; subst. now rewrite app_nil_r.
  - unfold persisted in H.
    destruct (snd (eg_WriteAST E (FileName file2) file2 (disk w))) eqn:Hok;
      [|discriminate].
    inversion H; subst w'. cbn [trace disk]. split; reflexivity.
Qed.

Lemma untestify_file_loop_effect E xforms pkg : forall files w w',
  for_range files (fun file _ => Untestify.process_file E xforms pkg file) tt w
  = (Ok tt, w') ->
  exists rs,
    Forall2 (fun file fr => rewrite_file_untestify E xforms pkg file = Ok fr) files rs
    /\ trace w' = (trace w ++ flat_map file_events rs)%list
    /\ disk w' = foldl (file_disk E) (disk w) rs.
Proof.
  induction files as [|file files IH]; intros w w' Hrun; cbn [for_range] in Hrun.
  - inversion Hrun; subst. exists []. split; [constructor|].
    cbn. now rewrite app_nil_r.
  - apply bind_Ok_inv in Hrun as ([] & w1 & Hstep & Hrest).
    rewrite process_file_untestify in Hstep.
    apply file_step_effect in Hstep as (fr & Hr & Ht1 & Hd1).
    apply IH in Hrest as (rs & Hall & Ht & Hd).
    exists (fr :: rs). split; [constructor; assumption|].
    cbn [flat_map foldl]. rewrite Ht, Ht1, Hd, Hd1, <- app_assoc. auto.
Qed.

Lemma untestify_package_loop_effect E xforms templates : forall pkgs w w',
  Untestify.package_loop E xforms templates pkgs w = (Ok tt, w') ->
  exists results,
    map fst results
    = filter (fun p => negb (Untestify.skip_package templates p)) pkgs
    /\ Forall (fun pr =>
                 Forall2 (fun file fr =>
                            rewrite_file_untestify E xforms (fst pr) file = Ok fr)
                   (Files (fst pr)) (snd pr)) results
    /\ trace w' = (trace w ++ flat_map package_events results)%list
    /\ disk w' = foldl (file_disk E) (disk w) (flat_map snd results).
Proof.
  unfold Untestify.package_loop.
  induction pkgs as [|pkg pkgs IH]; intros w w' Hrun; cbn [for_range] in Hrun.
  - inversion Hrun; subst. exists []. split; [reflexivity|].
    split; [constructor|]. cbn. now rewrite app_nil_r.
  - apply bind_Ok_inv in Hrun as ([] & w1 & Hstep & Hrest).
    apply IH in Hrest as (results & Hmap & Hall & Ht & Hd). clear IH.
    destruct (Untestify.skip_package templates pkg) eqn:Hs.
    + inversion Hstep; subst w1. exists results.
      rewrite filter_cons_False by (rewrite Hs; auto). auto.
    + unfold Untestify.process_package in Hstep.
      apply bind_Ok_inv in Hstep as ([] & w0 & Hemit & Hfiles).
      apply untestify_file_loop_effect in Hfiles as (rs & Hrs & Ht1 & Hd1).
      inversion Hemit; subst w0. cbn [trace disk] in Ht1, Hd1.
      exists ((pkg, rs) :: results).
      rewrite filter_cons_True by (rewrite Hs; exact I).
      split; [cbn [map fst]; now rewrite Hmap|].
      split; [constructor; [exact Hrs|exact Hall]|].
      cbn [flat_map package_events fst snd]. split.
      * rewrite Ht, Ht1, <- !app_assoc. reflexivity.
      * rewrite Hd, Hd1, foldl_app. reflexivity.
Qed.

(** C5 (amended). A run of [doMain] that completes loads the program
    for the requested packages and then ranges over [AllPackages] of that
    program when the transitive flag is set (every package the loader
    loaded: the requested ones and the packages they import), and over
    [InitialPackages] (the created and the requested packages) when it is
    not. It processes, in order, exactly the packages of that list it does
    not skip as templates: on each it prints the package line, runs every
    matcher and the import pass on every file and writes back the files
    whose count is not zero; nothing else is printed, reported or written
    after the matchers are built. A package that imports a requested
    package is processed only if the loader loaded it. *)
Theorem transitive_selects_loaded_packages (E : Env)
    (transitiveFlag verboseFlag : bool) (args : list string) (d : Disk) (w' : World) :
  Untestify.doMain E transitiveFlag verboseFlag args (init_world d) = (Ok tt, w') ->
  exists r w1 conf iprog xforms templates w2 results,
    expand E Untestify.dialect {| CreatePkgs := []; ImportPkgs := [] |}
      Untestify.substitutions (init_world d) = (Ok r, w1)
    /\ loader_FromArgs E (fst r) args = Some conf
    /\ loader_Load E conf (disk w1) = Some iprog
    /\ Untestify.make_xforms E verboseFlag iprog (snd r)
         {| templateSeq := templateSeq w1; disk := disk w1;
            trace := (trace w1 ++ [EvFromArgs args true; EvLoad true])%list |}
       = (Ok (xforms, templates), w2)
    /\ templates = take (Z.to_nat (snd r)) (Created iprog)
    /\ map fst results
       = filter (fun p => negb (Untestify.skip_package templates p))
           (if transitiveFlag then AllPackages iprog else InitialPackages iprog)
    /\ Forall (fun pr =>
                 Forall2 (fun file fr =>
                            rewrite_file_untestify E xforms (fst pr) file = Ok fr)
                   (Files (fst pr)) (snd pr)) results
    /\ trace w' = (trace w2 ++ flat_map package_events results)%list
    /\ disk w' = foldl (file_disk E) (disk w2) (flat_map snd results)
    /\ stdout_lines (trace w')
       = map (fun pr => ("Handel package " ++ PkgPath (fst pr) ++ nl)%string) results.
Proof.
  intros Hrun. unfold Untestify.doMain in Hrun.
  apply bind_Ok_inv in Hrun as (r & w1 & Hexp & Hrun).
  apply bind_Ok_inv in Hrun as (c & wa & Hargs & Hrun).
  apply bind_Ok_inv in Hrun as (conf & wb & Hconf & Hrun).
  apply bind_Ok_inv in Hrun as (p & wc & Hload & Hrun).
  apply bind_Ok_inv in Hrun as (iprog & wd & Hprog & Hrun).
  apply bind_Ok_inv in Hrun as ([xforms templates] & w2 & Hx & Hloop).
  cbn [fst snd] in Hloop.
  apply must_Ok_inv in Hconf as [-> ->].
  apply must_Ok_inv in Hprog as [-> ->].
  unfold FromArgs, bind, emit, ret in Hargs.
  inversion Hargs as [[Hc Hwa]]; clear Hargs.
  unfold Load, bind, emit, ret in Hload. rewrite <- Hwa in Hload.
  cbn [disk trace templateSeq] in Hload.
  inversion Hload as [[Hp Hwc]]; clear Hload.
  rewrite Hc, Hp in Hwc. cbn [is_some] in Hwc.
  rewrite <- app_assoc in Hwc. cbn [app] in Hwc.
  pose proof Hx as Htpl. unfold Untestify.make_xforms in Htpl.
  apply untestify_make_xforms_from in Htpl as [Htpl _].
  cbn [fst snd app] in Htpl. rewrite drop_0 in Htpl.
  pose proof Hloop as Hout.
  apply untestify_package_loop_effect in Hloop as (results & Hmap & Hall & Ht & Hd).
  exists r, w1, conf, iprog, xforms, templates, w2, results.
  split; [exact Hexp|]. split; [exact Hc|]. split; [exact Hp|].
  split; [rewrite Hwc; exact Hx|]. split; [exact Htpl|].
  split; [exact Hmap|]. split; [exact Hall|]. split; [exact Ht|].
  split; [exact Hd|].
  apply untestify_loop_stdout in Hout. rewrite Hout.
  assert (Hquiet : stdout_lines (trace w2) = []).
  { pose proof (silent_untestify_make_xforms E verboseFlag iprog (snd r) wc) as H6.
    rewrite Hx in H6. cbn [snd] in H6. rewrite H6, <- Hwc. cbn [trace].
    rewrite stdout_lines_app. cbn. rewrite app_nil_r.
    pose proof (silent_expand E Untestify.dialect
                  {| CreatePkgs := []; ImportPkgs := [] |}
                  Untestify.substitutions (init_world d)) as H1.
    rewrite Hexp in H1. cbn [snd] in H1. rewrite H1. reflexivity. }
  rewrite Hquiet. cbn [app].
  rewrite <- Hmap, map_map. reflexivity.
Qed.

Lemma transitive_selects_loaded_packages_witness :
  exists w',
    Untestify.doMain env0 true false ["example.com/q"] (init_world ∅) = (Ok tt, w')
    /\ exists r w1 conf iprog xforms templates w2 results,
         expand env0 Untestify.dialect {| CreatePkgs := []; ImportPkgs := [] |}
           Untestify.substitutions (init_world ∅) = (Ok r, w1)
         /\ loader_FromArgs env0 (fst r) ["example.com/q"] = Some conf
         /\ loader_Load env0 conf (disk w1) = Some iprog
         /\ Untestify.make_xforms env0 false iprog (snd r)
              {| templateSeq := templateSeq w1; disk := disk w1;
                 trace := (trace w1 ++ [EvFromArgs ["example.com/q"] true;
                                        EvLoad true])%list |}
            = (Ok (xforms, templates), w2)
         /\ templates = take (Z.to_nat (snd r)) (Created iprog)
         /\ map fst results
            = filter (fun p => negb (Untestify.skip_package templates p))
                (AllPackages iprog)
         /\ Forall (fun pr =>
                      Forall2 (fun file fr =>
                                 rewrite_file_untestify env0 xforms (fst pr) file
                                 = Ok fr)
                        (Files (fst pr)) (snd pr)) results
         /\ trace w' = (trace w2 ++ flat_map package_events results)%list
         /\ disk w' = foldl (file_disk env0) (disk w2) (flat_map snd results)
         /\ stdout_lines (trace w')
            = map (fun pr => ("Handel package " ++ PkgPath (fst pr) ++ nl)%string)
                results.
Proof.
  assert (Hrun : exists w',
            Untestify.doMain env0 true false ["example.com/q"] (init_world ∅)
            = (Ok tt, w')).
  { destruct (Untestify.doMain env0 true false ["example.com/q"] (init_world ∅))
      as [r w'] eqn:Heq.
    exists w'. f_equal.
    change r with (fst (r, w')). rewrite <- Heq. vm_compute. reflexivity. }
  destruct Hrun as [w' H]. exists w'.
  split; [exact H|].
  exact (transitive_selects_loaded_packages env0 true false ["example.com/q"] ∅ w' H).
Defined.

(** C5 as stated fails: [q] imports [p] and calls the source API; with the
    transitive flag and [p] requested, the run processes [p] only and [q]
    is neither reported nor written. *)
Lemma transitive_counterexample :
  In (PkgPath pkg_p) (PkgImports pkg_q)
  /\ fst (Untestify.main env0 false true false ["example.com/p"] (init_world ∅))
     = Ok tt
  /\ report_events
       (trace (snd (Untestify.main env0 false true false ["example.com/p"]
                      (init_world ∅))))
     = [ EvStdout ("Handel package example.com/p" ++ nl);
         EvStderr ("=== /go/src/example.com/p/p_test.go (3 matches)" ++ nl);
         EvWriteAST "/go/src/example.com/p/p_test.go" true ].
Proof.
  split; [left; reflexivity|].
  split; vm_compute; reflexivity.
Qed.

(** ** A failed operation ends the run *)

Lemma clean_app tr e : clean tr -> failure_cause e = None -> clean (tr ++ [e]).
Proof.
  intros Htr He. apply Forall_app. split; [exact Htr|]. now constructor.
Qed.

Lemma aborted_app tr e c :
  clean tr -> failure_cause e = Some c -> aborted_by (tr ++ [e]) c.
Proof. intros Htr He. exists tr, e. auto. Qed.

Lemma guarded_ret {A} (a : A) : guarded (ret a).
Proof. intros w Hw. exact Hw. Qed.

Lemma guarded_panic {A} c : guarded (@panic A c).
Proof. intros w Hw. now left. Qed.

Lemma guarded_lift {A} (r : Outcome A) : guarded (lift r).
Proof. intros w Hw. unfold lift. destruct r; auto. Qed.

Lemma guarded_must {A} c (r : option A) : guarded (must c r).
Proof. destruct r; [apply guarded_ret|apply guarded_panic]. Qed.

Lemma guarded_bind {A B} (m : M A) (k : A -> M B) :
  guarded m -> (forall a, guarded (k a)) -> guarded (bind m k).
Proof.
  intros Hm Hk w Hw. unfold bind. specialize (Hm w Hw).
  destruct (m w) as [[a|c|z] w1]; [|exact Hm|exact Hm].
  apply Hk. exact Hm.
Qed.

Lemma guarded_for_range {A S} (xs : list A) (body : A -> S -> M S) :
  (forall x acc, guarded (body x acc)) ->
  forall acc, guarded (for_range xs body acc).
Proof.
  intros Hb. induction xs as [|x xs IH]; intros acc; cbn [for_range].
  - apply guarded_ret.
  - apply guarded_bind; [apply Hb|exact IH].
Qed.

Lemma guarded_emit e : failure_cause e = None -> guarded (emit e).
Proof. intros He w Hw. unfold emit. cbn [trace]. now apply clean_app. Qed.

(** [if err := ioutil.WriteFile(..); err != nil { log.Panic(err) }]. *)
Lemma guarded_WriteFile {B} E path data (k : M B) :
  guarded k ->
  guarded (bind (WriteFile E path data)
             (fun ok : bool => if ok then k else panic WriteFileFailed)).
Proof.
  intros Hk w Hw. unfold bind, WriteFile.
  destruct (snd (ioutil_WriteFile E path data (disk w))) eqn:Hok.
  - apply Hk. cbn [trace]. now apply clean_app.
  - right. cbn [trace]. now apply aborted_app.
Qed.

Lemma guarded_WriteAST {B} E filename file (k : M B) :
  guarded k ->
  guarded (bind (WriteAST E filename file)
             (fun ok : bool => if ok then k else panic WriteASTFailed)).
Proof.
  intros Hk w Hw. unfold bind, WriteAST.
  destruct (snd (eg_WriteAST E filename file (disk w))) eqn:Hok.
  - apply Hk. cbn [trace]. now apply clean_app.
  - right. cbn [trace]. now apply aborted_app.
Qed.

(** A call that reports its outcome, followed by the check of the error. *)
Lemma guarded_checked {A B} (r : option A) (mk : bool -> Event) c (k : A -> M B) :
  failure_cause (mk true) = None -> failure_cause (mk false) = Some c ->
  (forall a, guarded (k a)) ->
  guarded (bind (bind (emit (mk (is_some r))) (fun _ => ret r))
             (fun x => bind (must c x) k)).
Proof.
  intros Ht Hf Hk w Hw. unfold bind, emit, ret.
  destruct r as [a|]; cbn [is_some must].
  - unfold ret. apply Hk. cbn [trace]. now apply clean_app.
  - unfold panic. right. cbn [trace]. now apply aborted_app.
Qed.

Lemma guarded_emit_unit E D fam sub a st : guarded (emit_unit E D fam sub a st).
Proof.
  destruct st as [conf n]. unfold emit_unit.
  apply guarded_bind; [intros w Hw; exact Hw|intros seq].
  apply guarded_bind; [intros w Hw; exact Hw|intros _].
  apply guarded_WriteFile. apply guarded_ret.
Qed.

Lemma guarded_addTemplates E D conf r subs : guarded (addTemplates E D conf r subs).
Proof.
  unfold addTemplates. apply guarded_bind.
  - intros w Hw. unfold Mkdir. cbn [trace]. now apply clean_app.
  - intros _. apply guarded_for_range. intros sub st.
    apply guarded_for_range. intros a st'. apply guarded_emit_unit.
Qed.

Lemma guarded_expand E D conf subs : guarded (expand E D conf subs).
Proof.
  unfold expand. apply guarded_bind; [apply guarded_addTemplates|intros r1].
  apply guarded_bind; [apply guarded_addTemplates|intros r2]. apply guarded_ret.
Qed.

Lemma guarded_persist E file n : guarded (persist E file n).
Proof.
  unfold persist. apply guarded_bind; [now apply guarded_emit|intros _].
  apply guarded_WriteAST. apply guarded_ret.
Qed.

Lemma guarded_file_loop (pf : File -> M unit) (files : list File) :
  (forall file, guarded (pf file)) ->
  guarded (for_range files (fun file _ => pf file) tt).
Proof. intros H. apply guarded_for_range. intros file _. apply H. Qed.

Lemma guarded_part000_process_file E xforms pkg file :
  guarded (Part000.process_file E xforms pkg file).
Proof.
  unfold Part000.process_file.
  destruct (apply_xforms E xforms pkg file 0) as [file1 n].
  apply guarded_bind; [apply guarded_lift|intros [file2 k]].
  destruct (int_add n k =? 0); [apply guarded_ret|apply guarded_persist].
Qed.

Lemma guarded_untestify_process_file E xforms pkg file :
  guarded (Untestify.process_file E xforms pkg file).
Proof.
  unfold Untestify.process_file.
  destruct (apply_xforms E xforms pkg file 0) as [file1 n].
  apply guarded_bind; [apply guarded_lift|intros [file2 k]].
  destruct (k =? 0); [apply guarded_ret|apply guarded_persist].
Qed.

Lemma guarded_part000_package_loop E xforms pkgs :
  guarded (Part000.package_loop E xforms pkgs).
Proof.
  unfold Part000.package_loop. apply guarded_for_range. intros pkg _.
  destruct (Part000.skip_package pkg); [apply guarded_ret|].
  unfold Part000.process_package.
  apply guarded_bind; [now apply guarded_emit|intros _].
  apply guarded_file_loop. apply guarded_part000_process_file.
Qed.

Lemma guarded_untestify_package_loop E xforms templates pkgs :
  guarded (Untestify.package_loop E xforms templates pkgs).
Proof.
  unfold Untestify.package_loop. apply guarded_for_range. intros pkg _.
  destruct (Untestify.skip_package templates pkg); [apply guarded_ret|].
  unfold Untestify.process_package.
  apply guarded_bind; [now apply guarded_emit|intros _].
  apply guarded_file_loop. apply guarded_untestify_process_file.
Qed.

Lemma guarded_NewTransformer {B} E i template file0 v (k : Transformer -> M B) :
  (forall x, guarded (k x)) ->
  guarded (bind (NewTransformer E i template file0 v)
             (fun r => bind (must NewTransformerFailed r) k)).
Proof.
  intros Hk. unfold NewTransformer.
  now apply (guarded_checked _ (EvNewTransformer i)).
Qed.

Lemma guarded_part000_make_xforms E v iprog n :
  guarded (Part000.make_xforms E v iprog n).
Proof.
  unfold Part000.make_xforms. apply guarded_for_range. intros i xforms.
  apply guarded_bind; [apply guarded_must|intros template].
  apply guarded_bind; [apply guarded_must|intros file0].
  apply guarded_NewTransformer. intros x. apply guarded_ret.
Qed.

Lemma guarded_untestify_make_xforms E v iprog n :
  guarded (Untestify.make_xforms E v iprog n).
Proof.
  unfold Untestify.make_xforms. apply guarded_for_range. intros i st.
  apply guarded_bind; [apply guarded_must|intros template].
  apply guarded_bind; [apply guarded_must|intros file0].
  apply guarded_NewTransformer. intros x. apply guarded_ret.
Qed.

Lemma guarded_Load {B} E conf (k : Program -> M B) :
  (forall p, guarded (k p)) ->
  guarded (bind (Load E conf) (fun p => bind (must LoadFailed p) k)).
Proof.
  intros Hk w Hw.
  exact (guarded_checked (loader_Load E conf (disk w)) EvLoad LoadFailed k
           eq_refl eq_refl Hk w Hw).
Qed.

Lemma guarded_part000_main E helpFlag verboseFlag args :
  guarded (Part000.main E helpFlag verboseFlag args).
Proof.
  unfold Part000.main. destruct helpFlag.
  { apply guarded_bind; [now apply guarded_emit|intros _]. intros w Hw. exact Hw. }
  destruct (length args =? 0)%nat.
  { apply guarded_bind; [now apply guarded_emit|intros _]. intros w Hw. exact Hw. }
  apply guarded_bind; [apply guarded_expand|intros r].
  unfold FromArgs. apply (guarded_checked _ (EvFromArgs args)); [reflexivity..|].
  intros conf. apply guarded_Load. intros iprog.
  apply guarded_bind; [apply guarded_part000_make_xforms|intros xforms].
  apply guarded_part000_package_loop.
Qed.

Lemma guarded_untestify_main E helpFlag transitiveFlag verboseFlag args :
  guarded (Untestify.main E helpFlag transitiveFlag verboseFlag args).
Proof.
  unfold Untestify.main. destruct helpFlag.
  { apply guarded_bind; [now apply guarded_emit|intros _]. intros w Hw. exact Hw. }
  destruct (length args =? 0)%nat.
  { apply guarded_bind; [now apply guarded_emit|intros _]. intros w Hw. exact Hw. }
  unfold Untestify.doMain.
  apply guarded_bind; [apply guarded_expand|intros r].
  unfold FromArgs. apply (guarded_checked _ (EvFromArgs args)); [reflexivity..|].
  intros conf. apply guarded_Load. intros iprog.
  apply guarded_bind; [apply guarded_untestify_make_xforms|intros xt].
  apply guarded_untestify_package_loop.
Qed.

Lemma guarded_run {A} (m : M A) (d : Disk) (e : Event) (c : PanicCause) :
  guarded m ->
  In e (trace (snd (m (init_world d)))) -> failure_cause e = Some c ->
  fst (m (init_world d)) = Panic c
  /\ exit_status (fst (m (init_world d))) <> 0
  /\ exists tr0, trace (snd (m (init_world d))) = (tr0 ++ [e])%list /\ clean tr0.
Proof.
  intros Hm Hin He.
  assert (H0 : clean (trace (init_world d))) by constructor.
  specialize (Hm (init_world d) H0). clear H0.
  assert (Hnot : forall tr, clean tr -> ~ In e tr).
  { intros tr Htr Hi. rewrite <- list_elem_of_In in Hi.
    pose proof (proj1 (Forall_forall _ _) Htr e Hi) as Hn. congruence. }
  destruct (m (init_world d)) as [[a|c'|z] w']; cbn [fst snd] in *.
  - exfalso. now apply (Hnot _ Hm).
  - destruct Hm as [Hm|(tr0 & e' & Htr & Hc0 & He')].
    + exfalso. now apply (Hnot _ Hm).
    + rewrite Htr in Hin. apply in_app_or in Hin as [Hin|[<-|[]]].
      * exfalso. now apply (Hnot _ Hc0).
      * assert (c' = c) by congruence. subst c'.
        split; [reflexivity|]. split; [discriminate|]. eauto.
  - exfalso. now apply (Hnot _ Hm).
Qed.

(** C8. In a run of either program from a fresh process, when an
    operation fails (the write of a template unit file, the parsing of the
    arguments, the load of the program, the construction of a matcher, or
    the write-back of a file), the program panics with the cause of that
    failure, so it ends with a non-zero status, and the failed operation
    is the last thing the run did: everything before it succeeded and no
    further unit or file is processed. *)
Theorem failed_operation_aborts_run (E : Env)
    (helpFlag transitiveFlag verboseFlag : bool) (args : list string)
    (d : Disk) (e : Event) (c : PanicCause) :
  failure_cause e = Some c ->
  (In e (trace (snd (Part000.main E helpFlag verboseFlag args (init_world d)))) ->
   fst (Part000.main E helpFlag verboseFlag args (init_world d)) = Panic c
   /\ exit_status (fst (Part000.main E helpFlag verboseFlag args (init_world d))) <> 0
   /\ exists tr0,
        trace (snd (Part000.main E helpFlag verboseFlag args (init_world d)))
        = (tr0 ++ [e])%list /\ clean tr0)
  /\ (In e (trace (snd (Untestify.main E helpFlag transitiveFlag verboseFlag args
                          (init_world d)))) ->
      fst (Untestify.main E helpFlag transitiveFlag verboseFlag args (init_world d))
      = Panic c
      /\ exit_status (fst (Untestify.main E helpFlag transitiveFlag verboseFlag args
                             (init_world d))) <> 0
      /\ exists tr0,
           trace (snd (Untestify.main E helpFlag transitiveFlag verboseFlag args
                         (init_world d)))
           = (tr0 ++ [e])%list /\ clean tr0).
Proof.
  intros He. split; intros Hin.
  - exact (guarded_run _ d e c (guarded_part000_main E helpFlag verboseFlag args)
             Hin He).
  - exact (guarded_run _ d e c
             (guarded_untestify_main E helpFlag transitiveFlag verboseFlag args)
             Hin He).
Qed.

Lemma failed_operation_aborts_run_witness :
  failure_cause failed_unit_write = Some WriteFileFailed
  /\ In failed_unit_write
       (trace (snd (Part000.main env_unwritable false false ["example.com/p"]
                      (init_world ∅))))
  /\ fst (Part000.main env_unwritable false false ["example.com/p"] (init_world ∅))
     = Panic WriteFileFailed
  /\ exists tr0,
       trace (snd (Part000.main env_unwritable false false ["example.com/p"]
                     (init_world ∅)))
       = (tr0 ++ [failed_unit_write])%list /\ clean tr0.
Proof.
  assert (Hc : failure_cause failed_unit_write = Some WriteFileFailed)
    by reflexivity.
  assert (Hin : In failed_unit_write
                  (trace (snd (Part000.main env_unwritable false false
                                 ["example.com/p"] (init_world ∅))))).
  { apply list_elem_of_In. apply (bool_decide_unpack _). vm_compute. exact I. }
  split; [exact Hc|]. split; [exact Hin|].
  destruct (proj1 (failed_operation_aborts_run env_unwritable false false false
                     ["example.com/p"] ∅ failed_unit_write WriteFileFailed Hc) Hin)
    as (H1 & _ & H3).
  split; [exact H1|exact H3].
Defined.

(** The other two failures the run can meet: a load that fails, and a
    write-back that fails. *)
Example load_failure_aborts :
  fst (Part000.main env0 false false ["example.com/missing"] (init_world ∅))
  = Panic LoadFailed
  /\ last (trace (snd (Part000.main env0 false false ["example.com/missing"]
                         (init_world ∅))))
     = Some (EvLoad false).
Proof. split; vm_compute; reflexivity. Qed.

Example write_back_failure_aborts :
  fst (Part000.main (sim_env workspace ["/go/src/example.com/p/p_test.go"])
         false false ["example.com/p"; "example.com/q"] (init_world ∅))
  = Panic WriteASTFailed
  /\ report_events
       (trace (snd (Part000.main
                      (sim_env workspace ["/go/src/example.com/p/p_test.go"])
                      false false ["example.com/p"; "example.com/q"]
                      (init_world ∅))))
     = [ EvStderr ("=== Package example.com/p (1 files)" ++ nl);
         EvStderr ("=== /go/src/example.com/p/p_test.go (3 matches)" ++ nl);
         EvWriteAST "/go/src/example.com/p/p_test.go" false ].
Proof. split; vm_compute; reflexivity. Qed.

(* ===================================================================== *)
(** * Further properties of the import pass *)
(* ===================================================================== *)

(** ** When the pass panics *)






(** On a file the parser cannot produce the pass panics. *)
Example rewriteImports_broken_file :
  Part000.rewriteImports broken_file = Panic TypeAssertionFailed.
Proof. vm_compute. reflexivity. Qed.

(** ** Files with nothing to reconcile *)

Lemma filter_all {A} (P : A -> bool) (l : list A) :
  Forall (fun x => P x = true) l -> filter P l = l.
Proof.
  induction 1 as [|x l Hx _ IH]; [reflexivity|].
  rewrite filter_cons_True by (rewrite Hx; exact I). now rewrite IH.
Qed.

Lemma renamed_spec_untouched imp :
  untouched_path (Path imp) = true -> renamed_spec imp = imp.
Proof.
  unfold untouched_path, renamed_spec, renamed_alias. intros H.
  apply andb_prop in H as [H Ha]. apply andb_prop in H as [_ He].
  apply negb_true_iff in Ha, He. rewrite Ha, He. now destruct imp.
Qed.

(** X2. A well-formed file none of whose imports has a path containing
    a testify path or a destination path comes back from the pass
    unchanged, specs and aliases included, with count 0. *)
Theorem rewriteImports_leaves_plain_file (file : File) :
  well_formed file ->
  (forall l imp, l ∈ Imports file \/ l ∈ decl_imports file ->
                 Store file !! l = Some imp -> untouched_path (Path imp) = true) ->
  Part000.rewriteImports file = Ok (file, 0).
Proof.
  intros Hwf Hplain.
  destruct (rewriteImportsFrom_total Contains 0 file Hwf) as (file' & n & Hrun).
  unfold Part000.rewriteImports. rewrite Hrun.
  apply rewriteImports_reconciled in Hrun as [-> ->].
  destruct Hwf as [Himp Hdecl].
  assert (Hsurv : forall l, l ∈ Imports file \/ l ∈ decl_imports file ->
                            survives (Store file) l = true).
  { intros l Hl.
    assert (Hlive : is_Some (Store file !! l)).
    { destruct Hl as [Hl|Hl].
      - exact (proj1 (Forall_forall _ _) Himp l Hl).
      - unfold decl_imports, spec_locs in Hl.
        apply list_elem_of_In, in_flat_map in Hl as (x & Hx & Hlx).
        apply list_elem_of_In in Hx.
        pose proof (proj1 (Forall_forall _ _) Hdecl x Hx) as Hx'.
        destruct x as [l'|]; [|contradiction].
        destruct Hlx as [<-|[]]. exact Hx'. }
    destruct Hlive as [imp Hs]. specialize (Hplain l imp Hl Hs).
    unfold survives. rewrite Hs. unfold untouched_path in Hplain.
    apply andb_prop in Hplain as [H _]. now apply andb_prop in H as [H _]. }
  assert (Hi : filter (survives (Store file)) (Imports file) = Imports file).
  { apply filter_all, Forall_forall. intros l Hl. apply Hsurv. now left. }
  assert (Hspecs : forall d specs, d ∈ Decls file -> d = GenDecl IMPORT specs ->
                     filter (survives_spec (Store file)) specs = specs).
  { intros d specs Hd ->. apply filter_all, Forall_forall. intros x Hx.
    assert (Hin : x ∈ decl_import_specs (Decls file)).
    { unfold decl_import_specs. apply list_elem_of_In, in_flat_map.
      exists (GenDecl IMPORT specs). split; apply list_elem_of_In; assumption. }
    pose proof (proj1 (Forall_forall _ _) Hdecl x Hin) as Hx'.
    destruct x as [l|]; [|contradiction]. cbn [survives_spec]. apply Hsurv. right.
    unfold decl_imports, spec_locs. apply list_elem_of_In, in_flat_map.
    exists (SImport l). split; [now apply list_elem_of_In|now left]. }
  assert (Hd : map (filter_decl (Store file)) (Decls file) = Decls file).
  { rewrite <- (map_id (Decls file)) at 2. apply map_ext_in. intros d Hd.
    apply list_elem_of_In in Hd.
    destruct d as [[] specs| |]; try reflexivity. cbn [filter_decl].
    now rewrite (Hspecs _ specs Hd eq_refl). }
  assert (Hfile : reconciled file = file).
  { unfold reconciled. rewrite Hd, Hi.
    fold (decl_imports file).
    assert (Hst : rename_all (decl_imports file) (Store file) = Store file).
    { apply map_eq. intros l. rewrite lookup_rename_all.
      case_bool_decide as Hl; [|reflexivity].
      destruct (Store file !! l) as [imp|] eqn:Hs; [|reflexivity]. cbn.
      f_equal. apply renamed_spec_untouched.
      eapply Hplain; [right; exact Hl|exact Hs]. }
    rewrite Hst. now destruct file. }
  rewrite Hfile. do 2 f_equal.
  unfold shrunk_count. rewrite Hi, Nat.eqb_refl.
  rewrite (proj2 (no_decl_shrinks (Store file) (Decls file)) Hd). reflexivity.
Qed.

Lemma rewriteImports_leaves_plain_file_witness :
  well_formed plain_file
  /\ Part000.rewriteImports plain_file = Ok (plain_file, 0).
Proof.
  assert (Hwf : well_formed plain_file).
  { split; repeat constructor; eexists; reflexivity. }
  split; [exact Hwf|].
  apply (rewriteImports_leaves_plain_file plain_file Hwf).
  intros l imp _ Hs.
  destruct (decide (l = 1%positive)) as [->|H1];
    [vm_compute in Hs; inversion Hs; subst; vm_compute; reflexivity|].
  destruct (decide (l = 2%positive)) as [->|H2];
    [vm_compute in Hs; inversion Hs; subst; vm_compute; reflexivity|].
  exfalso. unfold plain_file in Hs. cbn [Store] in Hs.
  rewrite lookup_insert_ne in Hs by congruence.
  rewrite lookup_singleton_ne in Hs by congruence. discriminate Hs.
Defined.

(** ** The count on a parsed file *)

Lemma filter_shrinks_elem {A} (P : A -> bool) (l : list A) :
  length (filter P l) <> length l <-> exists x, x ∈ l /\ P x = false.
Proof.
  split.
  - intros Hne. induction l as [|x l IH]; [contradiction|].
    destruct (P x) eqn:Hx.
    + rewrite filter_cons_True in Hne by (rewrite Hx; exact I).
      cbn [length] in Hne. destruct IH as (y & Hy & Hpy); [lia|].
      exists y. split; [now right|exact Hpy].
    + exists x. split; [now left|exact Hx].
  - intros (x & Hx & Hpx) Heq. apply filter_length_eq in Heq.
    rewrite <- Heq in Hx. apply list_elem_of_filter in Hx as [Hp _].
    rewrite Hpx in Hp. exact Hp.
Qed.

Lemma some_decl_shrinks store ds :
  (exists d, d ∈ ds /\ shrinks store d = true)
  <-> exists x, x ∈ decl_import_specs ds /\ survives_spec store x = false.
Proof.
  unfold decl_import_specs. split.
  - intros (d & Hd & Hs). destruct d as [[] specs| |]; try discriminate.
    cbn [shrinks] in Hs. apply negb_true_iff, Nat.eqb_neq in Hs.
    apply filter_shrinks_elem in Hs as (x & Hx & Hpx).
    exists x. split; [|exact Hpx]. apply list_elem_of_In, in_flat_map.
    exists (GenDecl IMPORT specs). split; apply list_elem_of_In; assumption.
  - intros (x & Hx & Hpx). apply list_elem_of_In, in_flat_map in Hx as (d & Hd & Hx).
    exists d. split; [now apply list_elem_of_In|].
    destruct d as [[] specs| |]; try contradiction.
    cbn [shrinks]. apply negb_true_iff, Nat.eqb_neq, filter_shrinks_elem.
    exists x. split; [now apply list_elem_of_In|exact Hpx].
Qed.

Lemma filter_nonempty {A} (P : A -> bool) (l : list A) x :
  x ∈ l -> P x = true -> (1 <= length (filter P l))%nat.
Proof.
  intros Hx Hp.
  assert (Hin : x ∈ filter P l) by (apply list_elem_of_filter; rewrite Hp; auto).
  destruct (filter P l); [inversion Hin|cbn; lia].
Qed.

(** X3. On a file whose import list holds the import specs of its import
    declarations, the pass never returns 1: either nothing is removed and
    it returns 0, or an import is removed from the import list and from
    at least one import declaration and it returns 2 or more. *)
Theorem rewriteImports_count_never_one (file file' : File) (n : Z) :
  shared_imports file ->
  int_of_len (Decls file) < int_max ->
  Part000.rewriteImports file = Ok (file', n) ->
  n = 0 \/ 2 <= n.
Proof.
  intros [[Himp Hdecl] Hsame] Hlen Hrun.
  apply rewriteImports_reconciled in Hrun as [_ ->].
  assert (Hbound : (shrunk_count file <= length (Decls file) + 1)%nat).
  { unfold shrunk_count.
    pose proof (length_filter (shrinks (Store file)) (Decls file)).
    destruct (_ =? _)%nat; lia. }
  unfold int_of_len in Hlen. rewrite iter_int_incr by lia.
  assert (Hiff : length (filter (survives (Store file)) (Imports file))
                 <> length (Imports file)
                 <-> exists d, d ∈ Decls file /\ shrinks (Store file) d = true).
  { rewrite filter_shrinks_elem, some_decl_shrinks. split.
    - intros (l & Hl & Hs). apply Hsame in Hl.
      unfold decl_imports, spec_locs in Hl.
      apply list_elem_of_In, in_flat_map in Hl as (x & Hx & Hlx).
      exists x. split; [now apply list_elem_of_In|].
      destruct x as [l'|]; [|contradiction]. destruct Hlx as [<-|[]]. exact Hs.
    - intros (x & Hx & Hs).
      pose proof (proj1 (Forall_forall _ _) Hdecl x Hx) as Hx'.
      destruct x as [l|]; [|contradiction]. exists l. split; [|exact Hs].
      apply Hsame. unfold decl_imports, spec_locs.
      apply list_elem_of_In, in_flat_map. exists (SImport l).
      split; [now apply list_elem_of_In|now left]. }
  unfold shrunk_count.
  destruct (Nat.eqb_spec (length (filter (survives (Store file)) (Imports file)))
              (length (Imports file))) as [He|Hne].
  - left.
    assert (Hnone : length (filter (shrinks (Store file)) (Decls file)) = 0%nat).
    { destruct (filter (shrinks (Store file)) (Decls file)) as [|d ds] eqn:Hf;
        [reflexivity|].
      exfalso. assert (Hd : d ∈ filter (shrinks (Store file)) (Decls file))
        by (rewrite Hf; left).
      apply list_elem_of_filter in Hd as [Hs Hd].
      apply (proj2 Hiff); [|exact He]. exists d. split; [exact Hd|].
      now destruct (shrinks (Store file) d). }
    rewrite Hnone. reflexivity.
  - right. apply Hiff in Hne as (d & Hd & Hs).
    pose proof (filter_nonempty _ _ d Hd Hs). lia.
Qed.

Lemma rewriteImports_count_never_one_witness :
  shared_imports (test_file "a_test.go" "TestA")
  /\ int_of_len (Decls (test_file "a_test.go" "TestA")) < int_max
  /\ Part000.rewriteImports (test_file "a_test.go" "TestA")
     = Ok (reconciled (test_file "a_test.go" "TestA"), 2)
  /\ (2 = 0 \/ 2 <= 2).
Proof.
  assert (H1 : shared_imports (test_file "a_test.go" "TestA")).
  { split; [split|].
    - repeat constructor; eexists; reflexivity.
    - repeat constructor; eexists; reflexivity.
    - intros l. reflexivity. }
  assert (H2 : int_of_len (Decls (test_file "a_test.go" "TestA")) < int_max)
    by (vm_compute; reflexivity).
  assert (H3 : Part000.rewriteImports (test_file "a_test.go" "TestA")
               = Ok (reconciled (test_file "a_test.go" "TestA"), 2))
    by (vm_compute; reflexivity).
  split; [exact H1|]. split; [exact H2|]. split; [exact H3|].
  exact (rewriteImports_count_never_one (test_file "a_test.go" "TestA")
           (reconciled (test_file "a_test.go" "TestA")) 2 H1 H2 H3).
Defined.

(** ** The pass written in place and the pass as a function *)

(** X4. The import block written out in the file loop of
    [src/untestify.go] and the function [rewriteImports] of
    [src/unnamed/part_000] do the same to every file: the loop body of the
    one ends with the same file and the same count, or with the same
    panic, as the loop body of the other. *)
Theorem inline_pass_equals_rewriteImports (E : Env) (xforms : list Transformer)
    (pkg : PackageInfo) (file : File) :
  rewrite_file_untestify E xforms pkg file = rewrite_file_part000 E xforms pkg file.
Proof.
  unfold rewrite_file_untestify, rewrite_file_part000.
  pose proof (apply_xforms_in_int E xforms pkg file 0
                ltac:(unfold in_int, int_min, int_max; lia)) as Hn.
  destruct (apply_xforms E xforms pkg file 0) as [file1 n]. cbn [fst snd] in *.
  rewrite inline_rewriteImports_same. unfold Part000.rewriteImports.
  rewrite (rewriteImportsFrom_shift Contains n file1 Hn).
  destruct (rewriteImportsFrom Contains 0 file1) as [[f2 k]|c|z]; reflexivity.
Qed.

(* ===================================================================== *)
(** * Further properties of the expander *)
(* ===================================================================== *)

Lemma string_length_app (a b : string) :
  String.length (a ++ b) = (String.length a + String.length b)%nat.
Proof.
  induction a as [|c a IH]; [reflexivity|].
  change (S (String.length (a ++ b)) = S (String.length a + String.length b)).
  now rewrite IH.
Qed.

Lemma string_app_inv_tail (a b s : string) : a ++ s = b ++ s -> a = b.
Proof.
  revert b. induction a as [|c a IH]; intros [|c' b] H.
  - reflexivity.
  - apply (f_equal String.length) in H.
    rewrite !string_length_app in H. simpl in H. lia.
  - apply (f_equal String.length) in H.
    rewrite !string_length_app in H. simpl in H. lia.
  - change (String c (a ++ s) = String c' (b ++ s)) in H.
    injection H as -> H. f_equal. now apply IH.
Qed.

Lemma path_of_inj a b : path_of a = path_of b -> a = b.
Proof.
  unfold path_of, filepath_Join. intros H.
  apply string_app_inv_head in H. apply string_app_inv_head in H.
  now apply string_app_inv_tail in H.
Qed.

Lemma written_paths_app tr1 tr2 :
  written_paths (tr1 ++ tr2)%list = (written_paths tr1 ++ written_paths tr2)%list.
Proof. unfold written_paths. apply flat_map_app. Qed.

Lemma written_paths_units D (l : list (Z * Triple)) :
  written_paths (map (unit_write D) l)
  = map (fun it => path_of (pkgName_of D (fst it))) l.
Proof.
  induction l as [|[seq [[r sub] a]] l IH]; [reflexivity|].
  cbn [map]. change (written_paths (?e :: ?t)) with
    ((match e with EvWriteFile p _ _ => [p] | _ => [] end) ++ written_paths t)%list.
  cbn [unit_write app fst]. now rewrite IH.
Qed.

Lemma NoDup_unit_paths D (l : list Triple) s :
  NoDup (map (fun it : Z * Triple => path_of (pkgName_of D (fst it)))
           (enumerate_from s l)).
Proof.
  rewrite <- (map_map fst (fun z => path_of (pkgName_of D z))).
  apply NoDup_fmap_2; [|apply NoDup_enumerate_fst].
  intros a b H. apply path_of_inj in H. now apply pkgName_of_inj in H.
Qed.

(** X5. A call of [addTemplates] for one family, with the counter at [s]
    and no write failing, returns 6 N, leaves the counter at [s + 6 N],
    keeps what the configuration had registered and appends one unit per
    (rule, arity variant) named after [s], [s + 1], ... in order. Each unit
    is written to [/tmp/.templatestmp/<name>.go], and the 6 N paths of the
    call are pairwise distinct, so no unit file is overwritten. *)
Theorem addTemplates_numbers_from_counter (E : Env) (D : Dialect)
    (rType : rewriteType) (subs : list substitution) (conf : Config) (w : World) :
  writes_never_fail E ->
  0 <= templateSeq w ->
  templateSeq w + 6 * int_of_len subs <= int_max ->
  exists conf' w',
    addTemplates E D conf rType subs w = (Ok (conf', 6 * int_of_len subs), w')
    /\ templateSeq w' = templateSeq w + 6 * int_of_len subs
    /\ CreatePkgs conf'
       = (CreatePkgs conf
            ++ map (unit_spec D)
                 (enumerate_from (templateSeq w) (family_jobs rType subs)))%list
    /\ written_paths (trace w')
       = (written_paths (trace w)
            ++ map (fun it => path_of (pkgName_of D (fst it)))
                 (enumerate_from (templateSeq w) (family_jobs rType subs)))%list
    /\ NoDup (map (fun it : Z * Triple => path_of (pkgName_of D (fst it)))
                (enumerate_from (templateSeq w) (family_jobs rType subs))).
Proof.
  intros Hw Hs Hmax.
  destruct (addTemplates_ok E D Hw rType subs conf w Hs Hmax)
    as (conf' & w' & Heq & Hc & _ & Ht & Htr).
  exists conf', w'. repeat split; try assumption.
  - rewrite Htr.
    change (EvMkdir dir :: ?l) with ([EvMkdir dir] ++ l)%list.
    rewrite !written_paths_app, written_paths_units. reflexivity.
  - apply NoDup_unit_paths.
Qed.

Lemma addTemplates_numbers_from_counter_witness :
  writes_never_fail env0
  /\ 0 <= templateSeq (init_world ∅)
  /\ templateSeq (init_world ∅) + 6 * int_of_len Untestify.substitutions <= int_max
  /\ exists conf' w',
       addTemplates env0 Untestify.dialect {| CreatePkgs := []; ImportPkgs := [] |}
         rewriteAssert Untestify.substitutions (init_world ∅)
       = (Ok (conf', 6 * int_of_len Untestify.substitutions), w')
       /\ templateSeq w' = 0 + 6 * int_of_len Untestify.substitutions.
Proof.
  assert (H1 : writes_never_fail env0) by (intros path data d; reflexivity).
  assert (H2 : 0 <= templateSeq (init_world ∅)) by (vm_compute; discriminate).
  assert (H3 : templateSeq (init_world ∅) + 6 * int_of_len Untestify.substitutions
               <= int_max) by (vm_compute; discriminate).
  split; [exact H1|]. split; [exact H2|]. split; [exact H3|].
  destruct (addTemplates_numbers_from_counter env0 Untestify.dialect rewriteAssert
              Untestify.substitutions {| CreatePkgs := []; ImportPkgs := [] |}
              (init_world ∅) H1 H2 H3) as (conf' & w' & Heq & Ht & _).
  exists conf', w'. split; [exact Heq|exact Ht].
Defined.

(** X6. Every template unit generated from the catalog of either program
    is fully instantiated: its text holds none of the placeholders [XX],
    [YY], [ARGS], [DECLS] (or [ARGDECLS]) and [TT] of the rule shapes. *)
Theorem units_hold_no_placeholder :
  Forall (fun it => has_placeholder Part000.dialect
                      (unit_text Part000.dialect it) = false)
    (enumerate_from 0 (triples Part000.substitutions))
  /\ Forall (fun it => has_placeholder Untestify.dialect
                         (unit_text Untestify.dialect it) = false)
       (enumerate_from 0 (triples Untestify.substitutions)).
Proof.
  split; apply Forall_forall; intros it Hit; apply list_elem_of_In in Hit;
    apply negb_true_iff; revert it Hit; apply forallb_forall;
    vm_compute; reflexivity.
Qed.

(* ===================================================================== *)
(** * Further properties of the drivers *)
(* ===================================================================== *)

(** ** One matcher per template unit *)

Lemma NewTransformer_Ok_inv E i t f v w r w' :
  NewTransformer E i t f v w = (Ok r, w') -> r = eg_NewTransformer E t f v.
Proof. unfold NewTransformer, bind, emit, ret. intros H. now inversion H. Qed.

Lemma part000_make_xforms_from E v iprog : forall k s acc w xs w',
  for_range (seq s k)
    (fun i xforms =>
       template <- index (Created iprog) i ;;
       file0 <- index (Files template) 0 ;;
       r <- NewTransformer E i template file0 v ;;
       xform <- must NewTransformerFailed r ;;
       ret (xforms ++ [xform])%list)
    acc w = (Ok xs, w') ->
  exists new,
    xs = (acc ++ new)%list /\ length new = k
    /\ forall i x, new !! i = Some x ->
         exists t f, Created iprog !! (s + i)%nat = Some t
                     /\ Files t !! 0%nat = Some f
                     /\ eg_NewTransformer E t f v = Some x.
Proof.
  induction k as [|k IH]; intros s acc w xs w' Hrun; cbn [seq for_range] in Hrun.
  - inversion Hrun; subst. exists []. rewrite app_nil_r.
    repeat split. intros i x Hi. discriminate Hi.
  - apply bind_Ok_inv in Hrun as (acc1 & w1 & Hbody & Hrest).
    apply bind_Ok_inv in Hbody as (t & w2 & Ht & Hbody).
    apply bind_Ok_inv in Hbody as (f & w3 & Hf & Hbody).
    apply bind_Ok_inv in Hbody as (r & w4 & Hr & Hbody).
    apply bind_Ok_inv in Hbody as (x & w5 & Hx & Hret).
    apply must_Ok_inv in Ht as [Ht _]. apply must_Ok_inv in Hf as [Hf _].
    apply NewTransformer_Ok_inv in Hr. apply must_Ok_inv in Hx as [Hx _].
    inversion Hret; subst acc1; clear Hret.
    apply IH in Hrest as (new & -> & Hlen & Hnew).
    exists (x :: new). rewrite <- app_assoc. repeat split; [cbn; lia|].
    intros [|i] y Hy.
    + inversion Hy; subst y. exists t, f. rewrite Nat.add_0_r.
      repeat split; [exact Ht|exact Hf|congruence].
    + cbn in Hy. apply Hnew in Hy as (t' & f' & Ht' & Hf' & Hx').
      exists t', f'. replace (s + S i)%nat with (S s + i)%nat by lia. auto.
Qed.

(** X7. When the loop that builds the matchers in [main] completes, it
    has built exactly [nTemplate] matchers, the i-th from the i-th created
    package and its first file; so the loader returned at least
    [nTemplate] created packages, each with a file, and every call of
    [NewTransformer] succeeded. With fewer created packages, or one
    without a file, the run panics instead. *)
Theorem make_xforms_one_per_template (E : Env) (verboseFlag : bool)
    (iprog : Program) (nTemplate : Z) (w w' : World) (xforms : list Transformer) :
  Part000.make_xforms E verboseFlag iprog nTemplate w = (Ok xforms, w') ->
  length xforms = Z.to_nat nTemplate
  /\ (Z.to_nat nTemplate <= length (Created iprog))%nat
  /\ forall i x, xforms !! i = Some x ->
       exists t f, Created iprog !! i = Some t
                   /\ Files t !! 0%nat = Some f
                   /\ eg_NewTransformer E t f verboseFlag = Some x.
Proof.
  intros Hrun. unfold Part000.make_xforms in Hrun.
  apply part000_make_xforms_from in Hrun as (new & -> & Hlen & Hnew).
  cbn [app]. split; [exact Hlen|]. split; [|exact Hnew].
  destruct (Z.to_nat nTemplate) as [|k] eqn:Hk; [lia|].
  destruct (lookup_lt_is_Some_2 new k ltac:(lia)) as [x Hx].
  apply Hnew in Hx as (t & f & Ht & _). cbn in Ht.
  apply lookup_lt_Some in Ht. lia.
Qed.

Lemma make_xforms_one_per_template_witness :
  exists xforms w',
    Part000.make_xforms env0 false
      {| Created := [pkg_p; pkg_q]; Imported := []; AllPackages := [] |} 2
      (init_world ∅) = (Ok xforms, w')
    /\ length xforms = Z.to_nat 2.
Proof.
  exists [pkg_p; pkg_q].
  exists (snd (Part000.make_xforms env0 false
                 {| Created := [pkg_p; pkg_q]; Imported := []; AllPackages := [] |}
                 2 (init_world ∅))).
  assert (H : Part000.make_xforms env0 false
                {| Created := [pkg_p; pkg_q]; Imported := []; AllPackages := [] |} 2
                (init_world ∅)
              = (Ok [pkg_p; pkg_q],
                 snd (Part000.make_xforms env0 false
                        {| Created := [pkg_p; pkg_q]; Imported := [];
                           AllPackages := [] |} 2 (init_world ∅))))
    by reflexivity.
  split; [exact H|].
  exact (proj1 (make_xforms_one_per_template env0 false _ 2 _ _ _ H)).
Defined.

(** A program image with fewer created packages than template units. *)
Example make_xforms_too_few_created :
  fst (Part000.make_xforms env0 false
         {| Created := [pkg_p]; Imported := []; AllPackages := [] |} 2
         (init_world ∅))
  = Panic IndexOutOfRange.
Proof. reflexivity. Qed.

(** ** The templates remembered by [doMain] *)

(** X8. When the loop that builds the matchers in [doMain] completes,
    the templates it has collected are the first [nTemplate] created
    packages of the loaded program, with one matcher each, and the package
    loop skips every package that is one of them (the same pointer),
    whatever its path. *)
Theorem templates_are_first_created (E : Env) (verboseFlag : bool)
    (iprog : Program) (nTemplate : Z) (w w' : World)
    (xforms : list Transformer) (templates : list PackageInfo) :
  Untestify.make_xforms E verboseFlag iprog nTemplate w
  = (Ok (xforms, templates), w') ->
  templates = take (Z.to_nat nTemplate) (Created iprog)
  /\ length xforms = Z.to_nat nTemplate
  /\ forall pkg t, In t templates -> PkgAddr pkg = PkgAddr t ->
       Untestify.skip_package templates pkg = true.
Proof.
  intros Hrun. unfold Untestify.make_xforms in Hrun.
  apply untestify_make_xforms_from in Hrun as [Hs Hl].
  cbn [fst snd app length] in Hs, Hl. rewrite drop_0 in Hs.
  split; [exact Hs|]. split; [exact Hl|].
  intros pkg t Ht Haddr. unfold Untestify.skip_package.
  assert (Hit : Untestify.isTemplate templates pkg = true).
  { unfold Untestify.isTemplate. apply existsb_exists. exists t.
    split; [exact Ht|]. rewrite Haddr. apply Pos.eqb_refl. }
  rewrite Hit. now destruct (Index (PkgPath pkg) "template0" >=? 0).
Qed.

Lemma templates_are_first_created_witness :
  exists xforms templates w',
    Untestify.make_xforms env0 false
      {| Created := [pkg_p; pkg_q]; Imported := []; AllPackages := [] |} 1
      (init_world ∅) = (Ok (xforms, templates), w')
    /\ templates = take (Z.to_nat 1) [pkg_p; pkg_q].
Proof.
  exists [pkg_p], [pkg_p].
  exists (snd (Untestify.make_xforms env0 false
                 {| Created := [pkg_p; pkg_q]; Imported := []; AllPackages := [] |}
                 1 (init_world ∅))).
  assert (H : Untestify.make_xforms env0 false
                {| Created := [pkg_p; pkg_q]; Imported := []; AllPackages := [] |} 1
                (init_world ∅)
              = (Ok ([pkg_p], [pkg_p]),
                 snd (Untestify.make_xforms env0 false
                        {| Created := [pkg_p; pkg_q]; Imported := [];
                           AllPackages := [] |} 1 (init_world ∅))))
    by reflexivity.
  split; [exact H|].
  exact (proj1 (templates_are_first_created env0 false
                  {| Created := [pkg_p; pkg_q]; Imported := []; AllPackages := [] |}
                  1 _ _ [pkg_p] [pkg_p] H)).
Defined.

(** ** The files a package pass writes back *)

Lemma written_files_app tr1 tr2 :
  written_files (tr1 ++ tr2)%list = (written_files tr1 ++ written_files tr2)%list.
Proof. unfold written_files. apply flat_map_app. Qed.

Lemma file_step_written E r w w' :
  file_step E r w = (Ok tt, w') ->
  exists file2 n,
    r = Ok (file2, n)
    /\ written_files (trace w')
       = (written_files (trace w)
            ++ (if n =? 0 then [] else [FileName file2]))%list.
Proof.
  unfold file_step. destruct r as [[file2 n]|c|z]; try discriminate.
  intros H. exists file2, n. split; [reflexivity|].
  destruct (n =? 0).
  - inversion H; subst. now rewrite app_nil_r.
  - unfold persisted in H. inversion H as [[Hok Hw]]. cbn [trace].
    rewrite written_files_app. reflexivity.
Qed.

Lemma file_loop_written E (rf : File -> Outcome (File * Z)) (pf : File -> M unit) :
  (forall file w, pf file w = file_step E (rf file) w) ->
  forall files w w',
    for_range files (fun file _ => pf file) tt w = (Ok tt, w') ->
    exists results,
      Forall2 (fun file r => rf file = Ok r) files results
      /\ written_files (trace w')
         = (written_files (trace w)
              ++ map (fun r => FileName (fst r))
                   (filter (fun r : File * Z => negb (snd r =? 0)) results))%list.
Proof.
  intros Hpf. induction files as [|file files IH]; intros w w' Hrun;
    cbn [for_range] in Hrun.
  - inversion Hrun; subst. exists []. split; [constructor|].
    cbn. now rewrite app_nil_r.
  - apply bind_Ok_inv in Hrun as ([] & w1 & Hstep & Hrest).
    rewrite Hpf in Hstep.
    apply file_step_written in Hstep as (file2 & n & Hr & Hw1).
    apply IH in Hrest as (results & Hall & Hw').
    exists ((file2, n) :: results). split; [constructor; assumption|].
    rewrite Hw', Hw1, <- app_assoc. f_equal.
    destruct (n =? 0) eqn:Hn.
    + rewrite filter_cons_False by (cbn [snd]; rewrite Hn; auto). reflexivity.
    + rewrite filter_cons_True by (cbn [snd]; rewrite Hn; exact I). reflexivity.
Qed.

(** X9. In a pass over a package that completes, in either program, the
    files handed to [WriteAST] are exactly the files of the package whose
    count is not zero, each once and in the order of [pkg.Files], under
    the name the file has after the rewrite. *)
Theorem package_writes_changed_files (E : Env) (xforms : list Transformer)
    (pkg : PackageInfo) (w w' : World) :
  (Part000.process_package E xforms pkg w = (Ok tt, w') ->
   exists results,
     Forall2 (fun file r => rewrite_file_part000 E xforms pkg file = Ok r)
       (Files pkg) results
     /\ written_files (trace w')
        = (written_files (trace w)
             ++ map (fun r => FileName (fst r))
                  (filter (fun r : File * Z => negb (snd r =? 0)) results))%list)
  /\ (Untestify.process_package E xforms pkg w = (Ok tt, w') ->
      exists results,
        Forall2 (fun file r => rewrite_file_untestify E xforms pkg file = Ok r)
          (Files pkg) results
        /\ written_files (trace w')
           = (written_files (trace w)
                ++ map (fun r => FileName (fst r))
                     (filter (fun r : File * Z => negb (snd r =? 0)) results))%list).
Proof.
  split; intros Hrun.
  - unfold Part000.process_package in Hrun.
    apply bind_Ok_inv in Hrun as ([] & w0 & Hemit & Hfiles).
    apply (file_loop_written E (rewrite_file_part000 E xforms pkg)
             (Part000.process_file E xforms pkg)
             (process_file_part000 E xforms pkg)) in Hfiles
      as (results & Hall & Hw').
    exists results. split; [exact Hall|]. rewrite Hw'.
    inversion Hemit; subst w0. cbn [trace].
    rewrite written_files_app. cbn. now rewrite app_nil_r.
  - unfold Untestify.process_package in Hrun.
    apply bind_Ok_inv in Hrun as ([] & w0 & Hemit & Hfiles).
    apply (file_loop_written E (rewrite_file_untestify E xforms pkg)
             (Untestify.process_file E xforms pkg)
             (process_file_untestify E xforms pkg)) in Hfiles
      as (results & Hall & Hw').
    exists results. split; [exact Hall|]. rewrite Hw'.
    inversion Hemit; subst w0. cbn [trace].
    rewrite written_files_app. cbn. now rewrite app_nil_r.
Qed.

Lemma package_writes_changed_files_witness :
  exists w',
    Part000.process_package env0 [] pkg_p (init_world ∅) = (Ok tt, w')
    /\ exists results,
         Forall2 (fun file r => rewrite_file_part000 env0 [] pkg_p file = Ok r)
           (Files pkg_p) results
         /\ written_files (trace w')
            = (written_files (trace (init_world ∅))
                 ++ map (fun r => FileName (fst r))
                      (filter (fun r : File * Z => negb (snd r =? 0)) results))%list.
Proof.
  assert (Hrun : exists w',
            Part000.process_package env0 [] pkg_p (init_world ∅) = (Ok tt, w')).
  { destruct (Part000.process_package env0 [] pkg_p (init_world ∅))
      as [r w'] eqn:Heq.
    exists w'. f_equal.
    change r with (fst (r, w')). rewrite <- Heq. vm_compute. reflexivity. }
  destruct Hrun as [w' H]. exists w'. split; [exact H|].
  exact (proj1 (package_writes_changed_files env0 [] pkg_p (init_world ∅) w') H).
Defined.
